(** * German energy price forecasting: the data processor

    A shallow embedding of [src/data_processor.py] and the properties of
    its three functions: [parse_german_number], [clean_smard_df] and
    [run_pipeline].

    Conventions of the embedding.
    - A Python [str] is a [string]: the sequence of its UTF-8 bytes.
      Substring tests on code points and on UTF-8 bytes agree, so
      ["€" in col] is [contains "€" col].  Case folding, white space and
      digits are modelled on the ASCII range; no character outside it
      folds to a letter sequence that the substring tests of the program
      look for.
    - A Python [float] is a [spec_float] at binary64 (precision 53,
      exponent bound 1024), the executable IEEE 754 model of the standard
      library.  Conversions round to nearest, ties to even.
    - A Python [int] is an unbounded [Z].
    - A cell of a frame is [None], a float, an int, a text, an instant
      or [NaT].
    - The pandas library is the one of the versions 1 and 2: text columns
      have the dtype [object], instants have nanosecond resolution, the
      month names and AM/PM are the English ones.
    - [pd.read_csv] and [pd.to_datetime] without a format are oracles:
      the first gives a frame or the text of its exception, the second the
      instants of a column or its exception.  So is the outcome of
      writing the master file and of printing its summary.
    - A raised exception is the [Raise] case of [result]; the console and
      the file written are the events of a run, in their order. *)

From Stdlib Require Import ZArith List Bool Ascii String Lia QArith Qabs.
From Stdlib Require Import Permutation Sorted.
From Stdlib Require Import Floats.SpecFloat.
Import ListNotations.

Local Open Scope string_scope.
Local Open Scope Z_scope.

(* ================================================================= *)
(** ** Python strings *)

Module Str.

(** [str.lower] on the ASCII range: [A-Z] to [a-z]. *)
Definition lower_ascii (c : ascii) : ascii :=
  let n := N_of_ascii c in
  if ((65 <=? n) && (n <=? 90))%N then ascii_of_N (n + 32) else c.

Fixpoint lower (s : string) : string :=
  match s with
  | EmptyString => EmptyString
  | String c s' => String (lower_ascii c) (lower s')
  end.

(** White space removed by [str.strip] and skipped by [float]:
    TAB, LF, VT, FF, CR, the separators FS GS RS US, and SPACE. *)
Definition is_space (c : ascii) : bool :=
  let n := N_of_ascii c in
  ((9 <=? n) && (n <=? 13) || (28 <=? n) && (n <=? 31) || (n =? 32))%N.

Fixpoint lstrip (s : string) : string :=
  match s with
  | EmptyString => EmptyString
  | String c s' => if is_space c then lstrip s' else s
  end.

Fixpoint rstrip (s : string) : string :=
  match s with
  | EmptyString => EmptyString
  | String c s' =>
      match rstrip s' with
      | EmptyString => if is_space c then EmptyString else String c EmptyString
      | r => String c r
      end
  end.

(** [s.strip()] *)
Definition strip (s : string) : string := lstrip (rstrip s).

(** [needle in hay] *)
Fixpoint contains (needle hay : string) : bool :=
  String.prefix needle hay ||
  match hay with
  | EmptyString => false
  | String _ hay' => contains needle hay'
  end.

Fixpoint interleave (new s : string) : string :=
  match s with
  | EmptyString => EmptyString
  | String c s' => String c (new ++ interleave new s')
  end.

(** Left-to-right scan of [str.replace] for a non-empty pattern:
    [skip] counts the characters of a matched occurrence still to be
    passed over. *)
Fixpoint replace_scan (old new : string) (skip : nat) (s : string) : string :=
  match s with
  | EmptyString => EmptyString
  | String c s' =>
      match skip with
      | S k => replace_scan old new k s'
      | O =>
          if String.prefix old s
          then new ++ replace_scan old new (String.length old - 1) s'
          else String c (replace_scan old new 0 s')
      end
  end.

(** [s.replace(old, new)] *)
Definition replace (old new s : string) : string :=
  match old with
  | EmptyString => new ++ interleave new s
  | _ => replace_scan old new 0 s
  end.

(** [s.split(sep)[0]] for a non-empty separator: the text before the
    first occurrence of [sep], the whole string when there is none. *)
Fixpoint split_head (sep s : string) : string :=
  match s with
  | EmptyString => EmptyString
  | String c s' =>
      if String.prefix sep s then EmptyString else String c (split_head sep s')
  end.

(** Character-wise image of a string. *)
Fixpoint map_chars (f : ascii -> ascii) (s : string) : string :=
  match s with
  | EmptyString => EmptyString
  | String c s' => String (f c) (map_chars f s')
  end.

(** The string without the occurrences of the character [c]. *)
Fixpoint delete_char (c : ascii) (s : string) : string :=
  match s with
  | EmptyString => EmptyString
  | String x s' =>
      if Ascii.eqb c x then delete_char c s' else String x (delete_char c s')
  end.

(** The character [c] occurs in [s]. *)
Fixpoint has_char (c : ascii) (s : string) : bool :=
  match s with
  | EmptyString => false
  | String x s' => Ascii.eqb c x || has_char c s'
  end.

(** [n] occurs in [s], as a proposition. *)
Definition sub (n s : string) : Prop := exists pre post, s = pre ++ n ++ post.

(** A text with no white space at either end. *)
Definition stripped (s : string) : Prop := lstrip s = s /\ rstrip s = s.

(** A space becomes an underscore. *)
Definition underscore (c : ascii) : ascii :=
  if Ascii.eqb c " " then "_"%char else c.

(** Number of occurrences of a label in a list of labels. *)
Definition count_label (x : string) (l : list string) : nat :=
  List.length (List.filter (String.eqb x) l).

End Str.

(* ================================================================= *)
(** ** Python floats *)

Module Float.

Definition prec : Z := 53.
Definition emax : Z := 1024.

Definition nan : spec_float := S754_nan.

(** [math.isnan] *)
Definition is_nan (f : spec_float) : bool :=
  match f with S754_nan => true | _ => false end.

Definition is_infinite (f : spec_float) : bool :=
  match f with S754_infinity _ => true | _ => false end.

(** The double nearest to the integer [n]. *)
Definition of_Z (n : Z) : spec_float := binary_normalize prec emax n 0 false.

(** The double nearest to [(-1)^neg * m * 10^e10]; an overflow gives an
    infinity and an underflow a zero, as [strtod] does. *)
Definition of_decimal (neg : bool) (m : Z) (e10 : Z) : spec_float :=
  match m with
  | Zpos p =>
      match e10 with
      | Zneg k =>
          SFdiv prec emax (S754_finite neg p 0)
                          (S754_finite false (Pos.pow 10 k) 0)
      | _ => binary_normalize prec emax (cond_Zopp neg (m * 10 ^ e10)) 0 neg
      end
  | _ => S754_zero neg
  end.

(** The exact rational value of a finite double. *)
Definition to_Q (f : spec_float) : option Q :=
  match f with
  | S754_zero _ => Some 0%Q
  | S754_finite s m e =>
      let v := match e with
               | Zneg k => Qmake (Zpos m) (Pos.pow 2 k)
               | _ => inject_Z (Zpos m * 2 ^ e)
               end in
      Some (if s then Qopp v else v)
  | _ => None
  end.

Definition digit_of (c : ascii) : option Z :=
  let n := N_of_ascii c in
  if ((48 <=? n) && (n <=? 57))%N then Some (Z.of_N n - 48) else None.

Definition is_digit (c : ascii) : bool :=
  match digit_of c with Some _ => true | None => false end.

(** Underscores in a numeric literal: each one must stand between two
    digits.  [prev] is the previous character of the input. *)
Fixpoint drop_underscores (prev : ascii) (s : string) : option string :=
  match s with
  | EmptyString => if Ascii.eqb prev "_" then None else Some EmptyString
  | String c s' =>
      if Ascii.eqb c "_" then
        if is_digit prev then drop_underscores c s' else None
      else if Ascii.eqb prev "_" && negb (is_digit c) then None
      else option_map (String c) (drop_underscores c s')
  end.

(** The longest run of digits at the head of [s], accumulated into
    [acc]; also the number of digits read and the rest. *)
Fixpoint digits (acc : Z) (n : nat) (s : string) : Z * nat * string :=
  match s with
  | EmptyString => (acc, n, s)
  | String c s' =>
      match digit_of c with
      | Some d => digits (10 * acc + d) (S n) s'
      | None => (acc, n, s)
      end
  end.

(** An optional sign: [true] for a minus. *)
Definition sign (s : string) : bool * string :=
  match s with
  | String "-" s' => (true, s')
  | String "+" s' => (false, s')
  | _ => (false, s)
  end.

(** [e] or [E], an optional sign and at least one digit, up to the end. *)
Definition exponent (s : string) : option Z :=
  match s with
  | EmptyString => Some 0
  | String c s' =>
      if Ascii.eqb (Str.lower_ascii c) "e" then
        let '(neg, s'') := sign s' in
        match digits 0 0 s'' with
        | (_, O, _) => None
        | (e, _, EmptyString) => Some (if neg then - e else e)
        | _ => None
        end
      else None
  end.

(** [digits [. digits]] or [. digits], then an optional exponent. *)
Definition number (neg : bool) (s : string) : option spec_float :=
  let '(ip, ni, r1) := digits 0 0 s in
  let '(m, nf, r2) :=
    match r1 with
    | String "." r => digits ip 0 r
    | _ => (ip, O, r1)
    end in
  match (ni + nf)%nat with
  | O => None
  | _ =>
      match exponent r2 with
      | Some e => Some (of_decimal neg m (e - Z.of_nat nf))
      | None => None
      end
  end.

(** [float(s)] for a string [s]; [None] is [ValueError]. *)
Definition of_string (s : string) : option spec_float :=
  match drop_underscores "000" s with
  | None => None
  | Some s1 =>
      let '(neg, body) := sign (Str.strip s1) in
      let low := Str.lower body in
      if String.eqb low "inf" || String.eqb low "infinity"
      then Some (S754_infinity neg)
      else if String.eqb low "nan" then Some S754_nan
      else number neg body
  end.

End Float.

(* ================================================================= *)
(** ** Cell values, exceptions and results *)

(** An instant at minute resolution. *)
Record Timestamp := mkTimestamp {
  ts_year : Z; ts_month : Z; ts_day : Z; ts_hour : Z; ts_minute : Z
}.

(** The Python values a cell of a data frame holds. *)
Inductive value : Type :=
| VNone                         (* None *)
| VFloat (f : spec_float)       (* float, with NaN *)
| VInt (n : Z)                  (* int *)
| VStr (s : string)             (* str *)
| VTime (t : Timestamp)         (* pandas Timestamp *)
| VNaT.                         (* pandas NaT *)

Inductive exn : Type :=
| KeyError (key : string)
| ValueError (msg : string)
| AttributeError (msg : string)
| OverflowError (msg : string)
| OSError (msg : string).

Inductive result (A : Type) : Type :=
| Ok (a : A)
| Raise (e : exn).
Arguments Ok {A} a.
Arguments Raise {A} e.

Definition bind {A B} (r : result A) (k : A -> result B) : result B :=
  match r with
  | Ok a => k a
  | Raise e => Raise e
  end.

Notation "x <- r ;; k" := (bind r (fun x => k))
  (at level 61, r at next level, right associativity).

(** [pd.isna(x)] on a scalar *)
Definition isna (x : value) : bool :=
  match x with
  | VNone | VNaT => true
  | VFloat f => Float.is_nan f
  | _ => false
  end.

(** [float(n)] for an int: the nearest double, [OverflowError] when it
    is out of range. *)
Definition float_of_int (n : Z) : result spec_float :=
  let f := Float.of_Z n in
  if Float.is_infinite f
  then Raise (OverflowError "int too large to convert to float")
  else Ok f.

(* ================================================================= *)
(** ** [parse_german_number] *)

Definition parse_german_number (x : value) : result spec_float :=
  if isna x then Ok Float.nan
  else match x with
       | VInt n => float_of_int n
       | VFloat f => Ok f
       | VStr s =>
           let clean_str := Str.replace "," "." (Str.replace "." "" s) in
           match Float.of_string clean_str with
           | Some f => Ok f
           | None => Ok Float.nan
           end
       | _ => Ok Float.nan
       end.

(* ================================================================= *)
(** ** Timestamps: [pd.to_datetime(..., format='%b %d, %Y %I:%M %p')] *)

Module Strptime.

(** The format is matched as the regular expression that [strptime]
    builds from it, case-insensitively and up to the end of the text:
    the alternatives of a directive are tried in their order, each with
    the rest of the format as its continuation. *)

Definition K (A : Type) := string -> option A.

Fixpoint first_some {A} (l : list (option A)) : option A :=
  match l with
  | [] => None
  | Some a :: _ => Some a
  | None :: l' => first_some l'
  end.

(** One digit accepted by [ok]. *)
Definition d1 {A} (ok : Z -> bool) (s : string) (k : Z -> K A) : option A :=
  match s with
  | String c r =>
      match Float.digit_of c with
      | Some a => if ok a then k a r else None
      | None => None
      end
  | _ => None
  end.

(** Two digits accepted by [ok]. *)
Definition d2 {A} (ok : Z -> Z -> bool) (s : string) (k : Z -> K A) : option A :=
  d1 (fun _ => true) s (fun a r =>
  d1 (fun b => ok a b) r (fun b r' => k (10 * a + b) r')).

(** A literal character. *)
Definition lit {A} (c : ascii) (s : string) (k : K A) : option A :=
  match s with
  | String c' r => if Ascii.eqb c c' then k r else None
  | _ => None
  end.

(** [\s+]: one or more white-space characters. *)
Definition spaces {A} (s : string) (k : K A) : option A :=
  match s with
  | String c r => if Str.is_space c then k (Str.lstrip r) else None
  | _ => None
  end.

Definition months : list string :=
  ["jan"; "feb"; "mar"; "apr"; "may"; "jun";
   "jul"; "aug"; "sep"; "oct"; "nov"; "dec"].

Fixpoint index_of (x : string) (l : list string) (i : Z) : option Z :=
  match l with
  | [] => None
  | y :: l' => if String.eqb x y then Some i else index_of x l' (i + 1)
  end.

(** [%b]: the abbreviated month name, giving 1..12. *)
Definition month_b {A} (s : string) (k : Z -> K A) : option A :=
  match s with
  | String a (String b (String c r)) =>
      match index_of (Str.lower (String a (String b (String c EmptyString)))) months 1 with
      | Some m => k m r
      | None => None
      end
  | _ => None
  end.

(** [%d]: [3[0-1]|[1-2]\d|0[1-9]|[1-9]| [1-9]] *)
Definition day_d {A} (s : string) (k : Z -> K A) : option A :=
  first_some
    [ d2 (fun a b => (a =? 3) && (b <=? 1)) s k;
      d2 (fun a _ => (1 <=? a) && (a <=? 2)) s k;
      d2 (fun a b => (a =? 0) && (1 <=? b)) s k;
      d1 (fun a => 1 <=? a) s k;
      lit " " s (fun r => d1 (fun a => 1 <=? a) r k) ].

(** [%Y]: [\d\d\d\d] *)
Definition year_Y {A} (s : string) (k : Z -> K A) : option A :=
  d2 (fun _ _ => true) s (fun hi r =>
  d2 (fun _ _ => true) r (fun lo r' => k (100 * hi + lo) r')).

(** [%I]: [1[0-2]|0[1-9]|[1-9]] *)
Definition hour_I {A} (s : string) (k : Z -> K A) : option A :=
  first_some
    [ d2 (fun a b => (a =? 1) && (b <=? 2)) s k;
      d2 (fun a b => (a =? 0) && (1 <=? b)) s k;
      d1 (fun a => 1 <=? a) s k ].

(** [%M]: [[0-5]\d|\d] *)
Definition minute_M {A} (s : string) (k : Z -> K A) : option A :=
  first_some
    [ d2 (fun a _ => a <=? 5) s k;
      d1 (fun _ => true) s k ].

(** [%p]: [am|pm]; [true] for PM. *)
Definition ampm_p {A} (s : string) (k : bool -> K A) : option A :=
  match s with
  | String a (String b r) =>
      let w := Str.lower (String a (String b EmptyString)) in
      if String.eqb w "am" then k false r
      else if String.eqb w "pm" then k true r
      else None
  | _ => None
  end.

Definition is_leap (y : Z) : bool :=
  ((y mod 4 =? 0) && negb (y mod 100 =? 0)) || (y mod 400 =? 0).

Definition days_in_month (y m : Z) : Z :=
  if m =? 2 then (if is_leap y then 29 else 28)
  else if (m =? 4) || (m =? 6) || (m =? 9) || (m =? 11) then 30
  else 31.

(** Lexicographic order of instants. *)
Definition ts_key (t : Timestamp) : Z :=
  (((ts_year t * 100 + ts_month t) * 100 + ts_day t) * 100 + ts_hour t) * 100
  + ts_minute t.

(** The range of a nanosecond [datetime64]: 1677-09-21 00:12:43.145224193
    to 2262-04-11 23:47:16.854775807. *)
Definition in_bounds (t : Timestamp) : bool :=
  (ts_key (mkTimestamp 1677 9 21 0 13) <=? ts_key t) &&
  (ts_key t <=? ts_key (mkTimestamp 2262 4 11 23 47)).

(** 12-hour clock to 24-hour clock. *)
Definition hour24 (h : Z) (pm : bool) : Z :=
  if pm then (if h =? 12 then 12 else h + 12)
  else (if h =? 12 then 0 else h).

(** The fields of a match become an instant when the date exists and
    is in range. *)
Definition build (y m d h mi : Z) (pm : bool) : option Timestamp :=
  let t := mkTimestamp y m d (hour24 h pm) mi in
  if (1 <=? y) && (d <=? days_in_month y m) && in_bounds t
  then Some t else None.

(** [%b %d, %Y %I:%M %p] *)
Definition parse (s : string) : option Timestamp :=
  month_b s (fun m s =>
  spaces s (fun s =>
  day_d s (fun d s =>
  lit "," s (fun s =>
  spaces s (fun s =>
  year_Y s (fun y s =>
  spaces s (fun s =>
  hour_I s (fun h s =>
  lit ":" s (fun s =>
  minute_M s (fun mi s =>
  spaces s (fun s =>
  ampm_p s (fun pm s =>
  match s with
  | EmptyString => build y m d h mi pm
  | _ => None
  end)))))))))))).

End Strptime.

(** One element of the start-date column under [errors='coerce']: a text
    that matches the format becomes its instant, anything else [NaT]. *)
Definition to_datetime_format (x : value) : value :=
  match x with
  | VStr s =>
      match Strptime.parse s with
      | Some t => VTime t
      | None => VNaT
      end
  | VTime t => VTime t
  | _ => VNaT
  end.

(* ================================================================= *)
(** ** Data frames *)

Inductive dtype : Type := DObject | DFloat64 | DInt64 | DDatetime.

Definition dtype_is_object (d : dtype) : bool :=
  match d with DObject => true | _ => false end.

(** A column: its label, its dtype and one value per row. *)
Record Series := mkSeries {
  name : string;
  dtype_of : dtype;
  values : list value
}.

(** A frame: the row labels and the columns in their order.  Every
    column of a frame has one value per row label. *)
Record DataFrame := mkDF {
  index : list value;
  columns : list Series
}.

Definition labels (df : DataFrame) : list string := map name (columns df).

Definition nrows (df : DataFrame) : nat := List.length (index df).

(** [label in df.columns] *)
Definition has_column (label : string) (df : DataFrame) : bool :=
  existsb (String.eqb label) (labels df).

(** [df[label]] where the label is borne by one column. *)
Definition get_column (label : string) (df : DataFrame) : option Series :=
  find (fun c => String.eqb label (name c)) (columns df).

(** The elements of [l] at the places where [mask] holds. *)
Fixpoint select {A} (mask : list bool) (l : list A) : list A :=
  match mask, l with
  | b :: mask', x :: l' => if b then x :: select mask' l' else select mask' l'
  | _, _ => []
  end.

(** The elements of [l] at the positions [ps], in the order of [ps]. *)
Definition gather (ps : list nat) (l : list value) : list value :=
  map (fun p => nth p l VNone) ps.

Definition map_values (f : list value -> list value) (c : Series) : Series :=
  mkSeries (name c) (dtype_of c) (f (values c)).

(** [df[label] = vals]: the column is replaced where it stands, or added
    as the last one. *)
Definition assign (label : string) (d : dtype) (vals : list value)
    (df : DataFrame) : result DataFrame :=
  if negb (Nat.eqb (List.length vals) (nrows df))
  then Raise (ValueError "Length of values does not match length of index")
  else if has_column label df
  then Ok (mkDF (index df)
             (map (fun c => if String.eqb label (name c)
                            then mkSeries label d vals else c) (columns df)))
  else Ok (mkDF (index df) (columns df ++ [mkSeries label d vals])%list).

(** [df.dropna(subset=[label])] *)
Definition dropna (label : string) (df : DataFrame) : result DataFrame :=
  match get_column label df with
  | None => Raise (KeyError label)
  | Some c =>
      let keep := map (fun v => negb (isna v)) (values c) in
      Ok (mkDF (select keep (index df))
               (map (map_values (select keep)) (columns df)))
  end.

(** [df.set_index(label, inplace=True)]: the column becomes the row
    labels and leaves the columns. *)
Definition set_index (label : string) (df : DataFrame) : result DataFrame :=
  match get_column label df with
  | None => Raise (KeyError label)
  | Some c =>
      Ok (mkDF (values c)
               (filter (fun c' => negb (String.eqb label (name c'))) (columns df)))
  end.

(** [df.drop(columns=ls, inplace=True, errors='ignore')] *)
Definition drop_columns (ls : list string) (df : DataFrame) : DataFrame :=
  mkDF (index df)
       (filter (fun c => negb (existsb (String.eqb (name c)) ls)) (columns df)).

(** [df.rename(columns={old: new}, inplace=True)]: every column that
    bears [old] takes [new]. *)
Definition rename_column (old new : string) (df : DataFrame) : DataFrame :=
  mkDF (index df)
       (map (fun c => if String.eqb (name c) old
                      then mkSeries new (dtype_of c) (values c) else c)
            (columns df)).

(** [Series.apply(f)], left to right, stopping at the first exception. *)
Fixpoint apply (f : value -> result spec_float) (l : list value)
    : result (list value) :=
  match l with
  | [] => Ok []
  | x :: l' =>
      y <- f x ;;
      ys <- apply f l' ;;
      Ok (VFloat y :: ys)
  end.

(* ================================================================= *)
(** ** Console and files *)

Inductive event : Type :=
| Print (line : string)                        (* print(line) *)
| PrintInfo (df : DataFrame)                   (* df.info() *)
| PrintList (l : list string)                  (* print(a list of str) *)
| WriteCsv (path : string) (df : DataFrame).   (* df.to_csv(path) *)

(** A computation: the effects it went through, in their order, then
    its value or the exception that ended it.  An effect that failed is
    the last one of the list: a write that failed may have left a part of
    its file. *)
Definition io (A : Type) : Type := list event * result A.

Definition ret {A} (a : A) : io A := ([], Ok a).

(** An announcement of the program (lines 30, 39, 154 and 158), taken
    to be printed. *)
Definition emit (e : event) : io unit := ([e], Ok tt).
Definition print (line : string) : io unit := emit (Print line).
Definition lift {A} (r : result A) : io A := ([], r).

Definition io_bind {A B} (m : io A) (k : A -> io B) : io B :=
  match m with
  | (t, Ok a) => let '(t', r) := k a in ((t ++ t')%list, r)
  | (t, Raise e) => (t, Raise e)
  end.

Notation "x <-- m ;; k" := (io_bind m (fun x => k))
  (at level 61, m at next level, right associativity).
Notation "m ;;; k" := (io_bind m (fun _ => k))
  (at level 61, right associativity).

(** What [pd.read_csv(path, sep=';', thousands='.', decimal=',')] gives:
    a frame, or the text of the exception it raised. *)
Inductive read_result : Type :=
| ReadOk (df : DataFrame)
| ReadError (msg : string).

(* ================================================================= *)
(** ** [clean_smard_df] *)

(** The name a raw header is given (lines 85-89). *)
Definition clean_name (col : string) : string :=
  let clean_name := Str.replace " " "_" (Str.strip (Str.split_head "[" col)) in
  if Str.contains "residual" (Str.lower col) then "Residual_Load"
  else if Str.contains "grid_load" (Str.lower col)
          || Str.contains "grid load" (Str.lower col) then "Grid_Load"
  else clean_name.

(** The headers dropped after indexing (line 77). *)
Definition is_date_label (c : string) : bool :=
  Str.contains "date" (Str.lower c) || Str.contains "timestamp" (Str.lower c).

(** One turn of the loop of lines 98-100. *)
Definition convert_column (col : string) (df : DataFrame) : result DataFrame :=
  if (1 <? Str.count_label col (labels df))%nat
  then Raise (AttributeError "'DataFrame' object has no attribute 'dtype'")
  else match get_column col df with
       | None => Raise (KeyError col)
       | Some c =>
           if dtype_is_object (dtype_of c) then
             vals <- apply parse_german_number (values c) ;;
             assign col (match vals with [] => DObject | _ => DFloat64 end) vals df
           else Ok df
       end.

(** Lines 77-78: the date and time columns leave the frame. *)
Definition drop_date_columns (df : DataFrame) : DataFrame :=
  let cols_to_drop := filter is_date_label (labels df) in
  drop_columns cols_to_drop df.

(** Lines 81-91: every header of the frame, in turn, takes its name. *)
Definition rename_all (df : DataFrame) : DataFrame :=
  fold_left (fun d col => rename_column col (clean_name col) d) (labels df) df.

Fixpoint for_each {A S} (body : A -> S -> result S) (l : list A) (s : S)
    : result S :=
  match l with
  | [] => Ok s
  | x :: l' => s' <- body x s ;; for_each body l' s'
  end.

(** Lines 98-100: the columns of dtype object become numbers. *)
Definition convert_all (df : DataFrame) : result DataFrame :=
  for_each convert_column (labels df) df.

(* ================================================================= *)
(** ** Joining and sorting on the row labels *)

Definition value_eq_dec (a b : value) : {a = b} + {a <> b}.
Proof.
  repeat decide equality.
Defined.

Definition label_eqb (a b : value) : bool :=
  if value_eq_dec a b then true else false.

(** The positions of [l], counted from [i], that hold [x]. *)
Fixpoint positions (x : value) (i : nat) (l : list value) : list nat :=
  match l with
  | [] => []
  | y :: l' =>
      if label_eqb x y then i :: positions x (S i) l' else positions x (S i) l'
  end.

(** The pairs of rows with equal labels, in the order of the left frame. *)
Fixpoint join_pairs (i : nat) (li ri : list value) : list (nat * nat) :=
  match li with
  | [] => []
  | x :: li' => (map (pair i) (positions x 0 ri) ++ join_pairs (S i) li' ri)%list
  end.

Definition overlap (l r : list string) : bool :=
  existsb (fun x => existsb (String.eqb x) r) l.

(** [left.join(right, how='inner')] *)
Definition join (left right : DataFrame) : result DataFrame :=
  if overlap (labels left) (labels right)
  then Raise (ValueError "columns overlap but no suffix specified")
  else
    let ps := join_pairs 0 (index left) (index right) in
    Ok (mkDF (gather (map fst ps) (index left))
             (map (map_values (gather (map fst ps))) (columns left) ++
              map (map_values (gather (map snd ps))) (columns right))%list).

(** Lines 160-162: the first frame joined with the others in turn. *)
Definition merge (df0 : DataFrame) (rest : list DataFrame) : result DataFrame :=
  for_each (fun d master_df => join master_df d) rest df0.

(** The order of row labels; the labels of a normalized frame are
    instants. *)
Definition label_leb (a b : value) : bool :=
  match a, b with
  | VTime s, VTime t => Strptime.ts_key s <=? Strptime.ts_key t
  | _, _ => true
  end.

Fixpoint insert_sorted (idx : list value) (p : nat) (l : list nat) : list nat :=
  match l with
  | [] => [p]
  | q :: l' =>
      if label_leb (nth q idx VNone) (nth p idx VNone)
      then q :: insert_sorted idx p l'
      else p :: q :: l'
  end.

(** The positions of [idx] in ascending order of their labels. *)
Definition sorted_positions (idx : list value) : list nat :=
  fold_left (fun acc p => insert_sorted idx p acc) (seq 0 (List.length idx)) [].

(** [df.sort_index()] *)
Definition sort_index (df : DataFrame) : DataFrame :=
  let ps := sorted_positions (index df) in
  mkDF (gather ps (index df)) (map (map_values (gather ps)) (columns df)).

Section Pipeline.

(** The files on disk, seen through [pd.read_csv]. *)
Variable read_csv : string -> read_result.

(** [pd.to_datetime(series)] with no format: the instants ([None] for
    a missing value), or the exception raised at an unreadable value. *)
Variable to_datetime : list value -> result (list (option Timestamp)).

Definition of_instant (t : option Timestamp) : value :=
  match t with Some t => VTime t | None => VNaT end.

(** Lines 47-67: the column of instants.  The tests
    [label in df.columns] are the cases of [get_column]. *)
Definition with_timestamp (df : DataFrame) : result DataFrame :=
  match get_column "Start date" df with
  | Some c =>
      assign "timestamp" DDatetime (map to_datetime_format (values c)) df
  | None =>
      match get_column "timestamp" df with
      | Some c =>
          ts <- to_datetime (values c) ;;
          assign "timestamp" DDatetime (map of_instant ts) df
      | None => Ok df
      end
  end.

(** Lines 47-102: from the frame read to the normalized frame. *)
Definition normalize (df : DataFrame) : result DataFrame :=
  df <- with_timestamp df ;;
  df <- dropna "timestamp" df ;;
  df <- set_index "timestamp" df ;;
  convert_all (rename_all (drop_date_columns df)).

Definition clean_smard_df (file_path : string) : io (option DataFrame) :=
  print ("Processing " ++ file_path ++ "...") ;;;
  match read_csv file_path with
  | ReadError e =>
      print ("Error reading " ++ file_path ++ ": " ++ e) ;;;
      ret None
  | ReadOk df =>
      df <-- lift (normalize df) ;;
      ret (Some df)
  end.


(* --------------------------------------------------------------- *)
(** *** [run_pipeline] *)

Definition data_dir : string := "../data".
Definition src_generation : string := data_dir ++ "/generation.csv".
Definition src_consumption : string := data_dir ++ "/consumption.csv".
Definition src_prices : string := data_dir ++ "/prices.csv".
Definition output_path : string := data_dir ++ "/energy_dataset_master.csv".

(** Lines 139-149: the price column takes its name. *)
Definition is_price_label (col : string) : bool :=
  Str.contains "Deutschland" col || Str.contains "€" col.

Definition rename_price (price_df : DataFrame) : DataFrame :=
  match find is_price_label (labels price_df) with
  | Some col => rename_column col "Day_Ahead_Price" price_df
  | None =>
      match columns price_df with
      | [c] => mkDF (index price_df)
                    [mkSeries "Day_Ahead_Price" (dtype_of c) (values c)]
      | _ => price_df
      end
  end.

(** [dfs.append(df)] when the source was read. *)
Definition append_some (dfs : list DataFrame) (df : option DataFrame)
    : list DataFrame :=
  match df with
  | Some d => (dfs ++ [d])%list
  | None => dfs
  end.

(** Lines 112-151: the three sources in their order. *)
Definition collect : io (list DataFrame) :=
  let dfs := [] in
  gen_df <-- clean_smard_df src_generation ;;
  let dfs := append_some dfs gen_df in
  cons_df <-- clean_smard_df src_consumption ;;
  let dfs := append_some dfs cons_df in
  price_df <-- clean_smard_df src_prices ;;
  let dfs := append_some dfs (option_map rename_price price_df) in
  ret dfs.

(** Writing the master file and printing the summary of the table
    (lines 169-177) stand outside every handler and may raise: the disk
    may refuse the file, the console a header.  [perform e] is what
    going through the effect [e] gives. *)
Variable perform : event -> result unit.

Definition attempt (e : event) : io unit := ([e], perform e).

Definition run_pipeline : io unit :=
  dfs <-- collect ;;
  match dfs with
  | [] => print "No data processed."
  | df0 :: rest =>
      print "Merging datasets..." ;;;
      master_df <-- lift (merge df0 rest) ;;
      let master_df := sort_index master_df in
      attempt (WriteCsv output_path master_df) ;;;
      attempt (Print ("Saved master dataset to " ++ output_path)) ;;;
      attempt (Print "Master DataFrame Info:") ;;;
      attempt (PrintInfo master_df) ;;;
      attempt (Print (String "010" "Column names:")) ;;;
      attempt (PrintList (labels master_df))
  end.

End Pipeline.

(* ================================================================= *)
(** ** The specification's vocabulary *)

(** A German-formatted text read as a number: every thousands point is
    deleted and the comma is the decimal point; a text that is no number
    is a missing value. *)
Definition german_decimal (s : string) : spec_float :=
  let t := Str.map_chars (fun c => if Ascii.eqb c "," then "."%char else c)
                         (Str.delete_char "." s) in
  match Float.of_string t with
  | Some f => f
  | None => Float.nan
  end.

(** The values [float] converts without overflow. *)
Definition representable (x : value) : Prop :=
  match x with
  | VInt n => Float.is_infinite (Float.of_Z n) = false
  | _ => True
  end.

(** What a value reads as: a number as itself, a text by the German
    convention, anything else as a missing value. *)
Definition german_reading (x : value) : spec_float :=
  match x with
  | VFloat f => f
  | VInt n => Float.of_Z n
  | VStr s => german_decimal s
  | _ => Float.nan
  end.

(** The generic cleanup of a header: the text before the first bracket,
    trimmed, with each space turned into an underscore. *)
Definition generic_cleanup (col : string) : string :=
  Str.map_chars Str.underscore (Str.strip (Str.split_head "[" col)).

(** The rename rules in their priority. *)
Definition canonical_name (col : string) : string :=
  let low := Str.lower col in
  if Str.contains "residual" low then "Residual_Load"
  else if Str.contains "grid load" low || Str.contains "grid_load" low
  then "Grid_Load"
  else generic_cleanup col.

(** Row [k] of a frame: its label and its cells in column order. *)
Definition row_at (df : DataFrame) (k : nat) : value * list value :=
  (nth k (index df) VNone, map (fun c => nth k (values c) VNone) (columns df)).

Definition rows (df : DataFrame) : list (value * list value) :=
  map (row_at df) (seq 0 (nrows df)).

(** The cells of row [k] in column order. *)
Definition cells (df : DataFrame) (k : nat) : list value :=
  map (fun c => nth k (values c) VNone) (columns df).

(** The headers of each frame are new to the headers [seen] so far. *)
Fixpoint disjoint_from (seen : list string) (ls : list (list string)) : bool :=
  match ls with
  | [] => true
  | l :: ls' => negb (overlap seen l) && disjoint_from (seen ++ l)%list ls'
  end.

Definition is_instant (v : value) : bool :=
  match v with VTime _ => true | _ => false end.

(** A generation export of three rows: an hour of data, an hour whose
    number is a dash, and a row of dashes. *)
Definition example_generation : DataFrame :=
  mkDF [VInt 0; VInt 1; VInt 2]
    [ mkSeries "Start date" DObject
        [VStr "Jan 1, 2021 12:00 AM"; VStr "Jan 1, 2021 1:00 AM"; VStr "-"];
      mkSeries "End date" DObject
        [VStr "Jan 1, 2021 1:00 AM"; VStr "Jan 1, 2021 2:00 AM"; VStr "-"];
      mkSeries "Total [MWh] Calculated resolutions" DObject
        [VStr "1.234,5"; VStr "-"; VStr "7"] ].

(** The same export once normalized: the row of dashes is gone and the
    dash among the numbers is a missing value. *)
Definition example_generation_normalized : DataFrame :=
  mkDF [VTime (mkTimestamp 2021 1 1 0 0); VTime (mkTimestamp 2021 1 1 1 0)]
    [ mkSeries "Total" DFloat64
        [VFloat (Float.of_decimal false 12345 (-1)); VFloat Float.nan] ].

(** A file with no date column at all. *)
Definition example_undated : DataFrame :=
  mkDF [VInt 0] [ mkSeries "A" DInt64 [VInt 1] ].

(** Hourly instants of 1 January 2021. *)
Definition hour (h : Z) : value := VTime (mkTimestamp 2021 1 1 h 0).

Definition num (n : Z) : value := VFloat (Float.of_Z n).

(** Table A at the hours 1, 2, 3 and table B at the hours 2, 3, 4. *)
Definition example_A : DataFrame :=
  mkDF [hour 1; hour 2; hour 3]
       [ mkSeries "Total" DFloat64 [num 10; num 20; num 30] ].

Definition example_B : DataFrame :=
  mkDF [hour 2; hour 3; hour 4]
       [ mkSeries "Grid_Load" DFloat64 [num 2; num 3; num 4] ].

(** Table B with the header of table A. *)
Definition example_B_total : DataFrame :=
  mkDF [hour 2; hour 3; hour 4]
       [ mkSeries "Total" DFloat64 [num 2; num 3; num 4] ].

(** The headers of the price table after the driver's renaming, from
    its headers before. *)
Definition price_labels (ls : list string) : list string :=
  match find is_price_label ls with
  | Some col =>
      map (fun l => if String.eqb l col then "Day_Ahead_Price" else l) ls
  | None =>
      match ls with
      | [_] => ["Day_Ahead_Price"]
      | _ => ls
      end
  end.

(** A price export whose only euro sign stands in the bracketed unit. *)
Definition example_prices : DataFrame :=
  mkDF [VInt 0; VInt 1]
    [ mkSeries "Start date" DObject
               [VStr "Jan 1, 2021 12:00 AM"; VStr "Jan 1, 2021 1:00 AM"];
      mkSeries "Price [€/MWh]" DFloat64 [num 50; num 48];
      mkSeries "Volume [MWh]" DFloat64 [num 7; num 9] ].

(** A price table in the German headers of the export. *)
Definition example_prices_de : DataFrame :=
  mkDF [hour 0]
    [ mkSeries "Anrainer_DE/LU" DFloat64 [num 47];
      mkSeries "Deutschland/Luxemburg" DFloat64 [num 50];
      mkSeries "Deutschland/Austria" DFloat64 [num 51] ].

(** One turn of the renaming loop, on a header and on a frame. *)
Definition renamed (col l : string) : string :=
  if String.eqb l col then clean_name col else l.

Definition rename_step (d : DataFrame) (col : string) : DataFrame :=
  rename_column col (clean_name col) d.

(** While the loop runs, a header either has its canonical name or is
    still raw and not yet visited. *)
Definition rename_inv (visited : list string) (orig cur : string) : Prop :=
  cur = clean_name orig \/ (cur = orig /\ ~ In orig visited).

(** The instants computed for the rows of a frame: either read from the
    start-date column with the fixed format, or given by [to_datetime]
    for a [timestamp] column. *)
Definition instants_of
    (to_datetime : list value -> result (list (option Timestamp)))
    (df : DataFrame) (ts : list value) : Prop :=
  match get_column "Start date" df with
  | Some c => ts = map to_datetime_format (values c)
  | None =>
      exists c l, get_column "timestamp" df = Some c /\
                  to_datetime (values c) = Ok l /\ ts = map of_instant l
  end.

(** The headers a frame has once normalized. *)
Definition canonical_labels (df : DataFrame) : list string :=
  map clean_name (filter (fun l => negb (is_date_label l)) (labels df)).

(** A frame the normalizer accepts: it has a start-date column, every
    column has one value per row, and no int in it overflows a float. *)
Definition usable (df : DataFrame) : Prop :=
  has_column "Start date" df = true /\
  Forall (fun c => List.length (values c) = nrows df) (columns df) /\
  Forall (fun c => Forall representable (values c)) (columns df).

(** Every column has one value per row and holds no overflowing int. *)
Definition sound (d : DataFrame) : Prop :=
  Forall (fun vs => List.length vs = nrows d /\ Forall representable vs)
         (map values (columns d)).

(** A frame the normalizer accepts, whichever column dates its rows: an
    instant or [NaT] is computed for every row, from the start-date
    column or from a [timestamp] column that [to_datetime] reads.  The
    frame is well formed, as every frame read from a file is: a column
    has one value per row, and no int in it overflows a float. *)
Definition acceptable
    (to_datetime : list value -> result (list (option Timestamp)))
    (df : DataFrame) : Prop :=
  (exists ts, instants_of to_datetime df ts /\ List.length ts = nrows df) /\
  Forall (fun c => List.length (values c) = nrows df) (columns df) /\
  Forall (fun c => Forall representable (values c)) (columns df).

(** The rows kept for a column of instants: those that are no [NaT]. *)
Definition kept (ts : list value) : list bool :=
  map (fun v => negb (isna v)) ts.

(** A column after the numeric conversion of lines 98-100: a column of
    dtype object holds the reading of each of its cells, any other
    column is as it was. *)
Definition converted (c : Series) : Series :=
  if dtype_is_object (dtype_of c)
  then mkSeries (name c)
                (match values c with [] => DObject | _ => DFloat64 end)
                (map (fun v => VFloat (german_reading v)) (values c))
  else c.

(** A raw column in the normalized frame: the rows marked by [keep],
    under the canonical name, converted. *)
Definition normalized_column (keep : list bool) (c : Series) : Series :=
  converted (mkSeries (clean_name (name c)) (dtype_of c) (select keep (values c))).


(** The tables a source brings: one, or none when it is absent. *)
Definition tables (o : option DataFrame) : list DataFrame :=
  match o with Some d => [d] | None => [] end.

(** [w] holds the tables [dfs] side by side: its headers are theirs in
    their order, and its rows are the rows of the tables that share a
    label, one from each table. *)
Definition merges (dfs : list DataFrame) (w : DataFrame) : Prop :=
  labels w = List.concat (map labels dfs) /\
  forall t r, In (t, r) (rows w) <->
              exists rs, Forall2 (fun d rd => In (t, rd) (rows d)) dfs rs /\
                         r = List.concat rs.

Section Sources.

Variable read_csv : string -> read_result.
Variable to_datetime : list value -> result (list (option Timestamp)).





End Sources.


(** What the driver prints and writes once the sources are merged. *)
Definition closing_events (master_df : DataFrame) : list event :=
  [ Print "Merging datasets...";
    WriteCsv output_path master_df;
    Print ("Saved master dataset to " ++ output_path);
    Print "Master DataFrame Info:";
    PrintInfo master_df;
    Print (String "010" "Column names:");
    PrintList (labels master_df) ].

(** Only the generation export is on disk. *)
Definition only_generation (path : string) : read_result :=
  if String.eqb path src_generation then ReadOk example_generation
  else ReadError "No such file or directory".

(** An oracle for [pd.to_datetime] that reads nothing. *)
Definition no_datetime (l : list value) : result (list (option Timestamp)) :=
  Raise (ValueError "Unknown datetime string format").

(** One instant is no later than another. *)
Definition earlier (a b : value) : Prop :=
  match a, b with
  | VTime s, VTime t => Strptime.ts_key s <= Strptime.ts_key t
  | _, _ => False
  end.

Definition is_write (e : event) : bool :=
  match e with WriteCsv _ _ => true | _ => false end.

(** Two headers with one canonical name. *)
Definition example_twins : DataFrame :=
  mkDF [VInt 0]
    [ mkSeries "Start date" DObject [VStr "Jan 1, 2021 12:00 AM"];
      mkSeries "Total [MWh] Calculated resolutions" DObject [VStr "1"];
      mkSeries "Total [MWh] Original resolutions" DObject [VStr "2"] ].


(** Table A with its rows out of order. *)
Definition example_unsorted : DataFrame :=
  mkDF [hour 3; hour 1; hour 2]
       [ mkSeries "Total" DFloat64 [num 30; num 10; num 20] ].

(** The text [YYYY-MM-DD HH:MM] as an instant. *)
Definition iso_instant (s : string) : option Timestamp :=
  Strptime.year_Y s (fun y s =>
  Strptime.lit "-" s (fun s =>
  Strptime.d2 (fun _ _ => true) s (fun m s =>
  Strptime.lit "-" s (fun s =>
  Strptime.d2 (fun _ _ => true) s (fun d s =>
  Strptime.lit " " s (fun s =>
  Strptime.d2 (fun _ _ => true) s (fun h s =>
  Strptime.lit ":" s (fun s =>
  Strptime.d2 (fun _ _ => true) s (fun mi s =>
  match s with
  | EmptyString =>
      let t := mkTimestamp y m d h mi in
      if (1 <=? m) && (m <=? 12) && (1 <=? d)
         && (d <=? Strptime.days_in_month y m)
         && (h <=? 23) && (mi <=? 59) && Strptime.in_bounds t
      then Some t else None
  | _ => None
  end))))))))).

(** An oracle for [pd.to_datetime] on a column of texts: a text
    [YYYY-MM-DD HH:MM] is its instant, a missing value is [NaT], and at
    any other text the call raises, as it does with no
    [errors='coerce'].  Numbers are not among the cells it is used on. *)
Fixpoint iso_datetime (l : list value) : result (list (option Timestamp)) :=
  match l with
  | [] => Ok []
  | v :: l' =>
      t <- match v with
           | VStr s =>
               match iso_instant s with
               | Some t => Ok (Some t)
               | None =>
                   Raise (ValueError
                     ("Unknown datetime string format, unable to parse: " ++ s))
               end
           | VTime t => Ok (Some t)
           | _ =>
               if isna v then Ok None
               else Raise (ValueError "Unknown datetime string format")
           end ;;
      ts <- iso_datetime l' ;;
      Ok (t :: ts)
  end.

(** A file keyed by a [timestamp] column whose second row has a text
    that is no date, and the same rows keyed by a start date. *)
Definition example_bad_stamp : DataFrame :=
  mkDF [VInt 0; VInt 1]
    [ mkSeries "timestamp" DObject [VStr "2021-01-01 00:00"; VStr "abc"];
      mkSeries "Total" DInt64 [VInt 1; VInt 2] ].

Definition example_bad_start : DataFrame :=
  mkDF [VInt 0; VInt 1]
    [ mkSeries "Start date" DObject [VStr "Jan 1, 2021 12:00 AM"; VStr "abc"];
      mkSeries "Total" DInt64 [VInt 1; VInt 2] ].




(** A console and a disk that take everything. *)
Definition always_ok (e : event) : result unit := Ok tt.

(** A disk with no room for the master file. *)
Definition disk_full (e : event) : result unit :=
  match e with
  | WriteCsv _ _ => Raise (OSError "No space left on device")
  | _ => Ok tt
  end.

(* ================================================================= *)
(** * Properties *)

(** ** Strings *)

Module StrFacts.
Import Str.

Lemma prefix_nil s : String.prefix "" s = true.
Proof. destruct s; reflexivity. Qed.

Lemma prefix_cons a s b t :
  String.prefix (String a s) (String b t) = Ascii.eqb a b && String.prefix s t.
Proof.
  simpl. destruct (ascii_dec a b) as [->|n].
  - now rewrite Ascii.eqb_refl.
  - apply Ascii.eqb_neq in n. now rewrite n.
Qed.

Lemma prefix_app n s :
  String.prefix n s = true <-> exists post, s = n ++ post.
Proof.
  revert s. induction n as [|a n IH]; intros s.
  - rewrite prefix_nil. split; [intros _; now exists s | reflexivity].
  - destruct s as [|b t].
    + split; [discriminate | intros [post H]; discriminate].
    + rewrite prefix_cons, andb_true_iff, Ascii.eqb_eq, IH. split.
      * intros [-> [post ->]]. now exists post.
      * intros [post H]. injection H as -> ->. split; [reflexivity | now exists post].
Qed.

Lemma contains_sub n s : contains n s = true <-> sub n s.
Proof.
  induction s as [|c s IH].
  - cbn [contains]. rewrite orb_false_r, prefix_app. split.
    + intros [post H]. now exists "", post.
    + intros [pre [post H]]. destruct pre; [now exists post | discriminate].
  - cbn [contains]. rewrite orb_true_iff, prefix_app, IH. split.
    + intros [[post H] | [pre [post H]]].
      * now exists "", post.
      * exists (String c pre), post. simpl. now rewrite H.
    + intros [pre [post H]]. destruct pre as [|d pre].
      * left. now exists post.
      * right. injection H as -> H. now exists pre, post.
Qed.

Lemma contains_false_sub n s : contains n s = false <-> ~ sub n s.
Proof.
  rewrite <- contains_sub. destruct (contains n s); split; intros; congruence.
Qed.

Lemma app_assoc (a b c : string) : (a ++ b) ++ c = a ++ b ++ c.
Proof. induction a; simpl; congruence. Qed.

Lemma app_nil_r (a : string) : a ++ "" = a.
Proof. induction a; simpl; congruence. Qed.

Lemma sub_in_part n t a b : sub n t -> sub n (a ++ t ++ b).
Proof.
  intros [pre [post ->]]. exists (a ++ pre), (post ++ b).
  now rewrite !app_assoc.
Qed.

Lemma map_chars_app f a b : map_chars f (a ++ b) = map_chars f a ++ map_chars f b.
Proof. induction a; simpl; congruence. Qed.

Lemma lower_map s : lower s = map_chars lower_ascii s.
Proof. induction s; simpl; congruence. Qed.

Lemma map_chars_map f g s : map_chars f (map_chars g s) = map_chars (fun c => f (g c)) s.
Proof. induction s; simpl; congruence. Qed.

Lemma map_chars_eq_app f s a b :
  map_chars f s = a ++ b ->
  exists a' b', s = a' ++ b' /\ map_chars f a' = a /\ map_chars f b' = b.
Proof.
  revert s. induction a as [|x a IH]; intros s H.
  - exists "", s. auto.
  - destruct s as [|c s]; [discriminate|]. simpl in H. injection H as Hx H.
    destruct (IH _ H) as [a' [b' [-> [Ha Hb]]]].
    exists (String c a'), b'. simpl. now rewrite Hx, Ha.
Qed.

(** An occurrence in an image comes from an occurrence in the source. *)
Lemma sub_map_chars f n s :
  sub n (map_chars f s) -> exists m, sub m s /\ map_chars f m = n.
Proof.
  intros [pre [post H]].
  destruct (map_chars_eq_app _ _ _ _ H) as [p [r [-> [_ H2]]]].
  destruct (map_chars_eq_app _ _ _ _ H2) as [m [q [-> [Hm _]]]].
  exists m. split; [now exists p, q | exact Hm].
Qed.

Lemma sub_lower n t s : sub t s -> sub n (lower t) -> sub n (lower s).
Proof.
  intros [a [b ->]] H. rewrite !lower_map, !map_chars_app.
  rewrite lower_map in H. now apply sub_in_part.
Qed.

(** *** [replace] of a one-character pattern *)

Lemma replace_delete c s : replace (String c "") "" s = delete_char c s.
Proof.
  unfold replace. induction s as [|x s IH]; [reflexivity|].
  cbn [replace_scan delete_char]. rewrite prefix_cons, prefix_nil, andb_true_r.
  cbn [String.length Nat.sub]. destruct (Ascii.eqb c x); simpl; now rewrite IH.
Qed.

Lemma replace_map c d s :
  replace (String c "") (String d "") s
  = map_chars (fun x => if Ascii.eqb x c then d else x) s.
Proof.
  unfold replace. induction s as [|x s IH]; [reflexivity|].
  cbn [replace_scan map_chars]. rewrite prefix_cons, prefix_nil, andb_true_r.
  cbn [String.length Nat.sub]. rewrite (Ascii.eqb_sym x c).
  destruct (Ascii.eqb c x); simpl; now rewrite IH.
Qed.

Lemma map_chars_id f s :
  (forall x, has_char x s = true -> f x = x) -> map_chars f s = s.
Proof.
  induction s as [|c s IH]; intros H; [reflexivity|]. simpl. f_equal.
  - apply H. simpl. now rewrite Ascii.eqb_refl.
  - apply IH. intros x Hx. apply H. simpl. rewrite Hx. apply orb_true_r.
Qed.

Lemma has_char_app c a b : has_char c (a ++ b) = has_char c a || has_char c b.
Proof. induction a; simpl; [reflexivity|]. now rewrite IHa, orb_assoc. Qed.

Lemma has_char_sub c t s : sub t s -> has_char c s = false -> has_char c t = false.
Proof.
  intros [a [b ->]]. rewrite !has_char_app, !orb_false_iff. tauto.
Qed.

Lemma has_char_contains c s : has_char c s = contains (String c "") s.
Proof.
  induction s as [|x s IH]; [reflexivity|].
  cbn [has_char contains]. now rewrite prefix_cons, prefix_nil, andb_true_r, IH.
Qed.

Lemma has_char_delete c s : has_char c (delete_char c s) = false.
Proof.
  induction s as [|x s IH]; [reflexivity|]. simpl.
  destruct (Ascii.eqb c x) eqn:E; [exact IH|]. simpl. now rewrite E.
Qed.

Lemma has_char_delete_other c d s :
  has_char c s = false -> has_char c (delete_char d s) = false.
Proof.
  induction s as [|x s IH]; [reflexivity|]. simpl. rewrite orb_false_iff.
  intros [E H]. destruct (Ascii.eqb d x); simpl; [auto|]. rewrite E. auto.
Qed.

Lemma has_char_map_chars c f s :
  (forall x, f x = c -> x = c) ->
  has_char c s = false -> has_char c (map_chars f s) = false.
Proof.
  intros Hf. induction s as [|x s IH]; [reflexivity|]. simpl.
  rewrite !orb_false_iff. intros [E H]. split; [|auto].
  apply Ascii.eqb_neq. intros Hc. apply Ascii.eqb_neq in E. apply E.
  symmetry. now apply Hf.
Qed.

(** *** [split] *)

Lemma split_head_prefix sep s : exists rest, s = split_head sep s ++ rest.
Proof.
  induction s as [|c s [rest IH]].
  - now exists "".
  - cbn [split_head]. destruct (String.prefix sep (String c s)).
    + now exists (String c s).
    + exists rest. simpl. now rewrite <- IH.
Qed.

Lemma split_head_sub sep s : sub (split_head sep s) s.
Proof.
  destruct (split_head_prefix sep s) as [rest H]. now exists "", rest.
Qed.

Lemma split_head_no_sep c s : has_char c (split_head (String c "") s) = false.
Proof.
  induction s as [|x s IH]; [reflexivity|].
  cbn [split_head]. rewrite prefix_cons, prefix_nil, andb_true_r.
  destruct (Ascii.eqb c x) eqn:E; [reflexivity|]. simpl. now rewrite E.
Qed.

Lemma split_head_id c s : has_char c s = false -> split_head (String c "") s = s.
Proof.
  induction s as [|x s IH]; [reflexivity|]. simpl has_char.
  rewrite orb_false_iff. intros [E H].
  cbn [split_head]. rewrite prefix_cons, prefix_nil, andb_true_r, E.
  now rewrite IH.
Qed.

(** *** [strip] *)

Lemma lstrip_suffix s : exists a, s = a ++ lstrip s.
Proof.
  induction s as [|c s [a IH]].
  - now exists "".
  - simpl. destruct (is_space c).
    + exists (String c a). simpl. now rewrite <- IH.
    + now exists "".
Qed.

Lemma rstrip_prefix s : exists b, s = rstrip s ++ b.
Proof.
  induction s as [|c s [b IH]].
  - now exists "".
  - simpl. destruct (rstrip s) as [|d r] eqn:E.
    + destruct (is_space c).
      * now exists (String c s).
      * exists b. simpl. now rewrite IH at 1.
    + exists b. simpl. now rewrite IH at 1.
Qed.

Lemma strip_sub s : sub (strip s) s.
Proof.
  unfold strip. destruct (rstrip_prefix s) as [b Hb].
  destruct (lstrip_suffix (rstrip s)) as [a Ha].
  exists a, b. rewrite <- app_assoc, <- Ha. exact Hb.
Qed.

Lemma rstrip_tail c s : rstrip (String c s) = String c s -> rstrip s = s.
Proof.
  simpl. destruct (rstrip s) as [|d r].
  - destruct (is_space c); [discriminate|]. now intros [= <-].
  - now intros [= <-].
Qed.

Lemma rstrip_idem s : rstrip (rstrip s) = rstrip s.
Proof.
  induction s as [|c s IH]; [reflexivity|]. simpl.
  destruct (rstrip s) as [|d r] eqn:E.
  - destruct (is_space c) eqn:Ec; [reflexivity|]. simpl. now rewrite Ec.
  - cbn [rstrip] in *. cbn [rstrip]. now rewrite IH.
Qed.

Lemma rstrip_lstrip s : rstrip s = s -> rstrip (lstrip s) = lstrip s.
Proof.
  induction s as [|c s IH]; [reflexivity|]. intros H. cbn [lstrip].
  destruct (is_space c); [|exact H]. apply IH. now apply rstrip_tail in H.
Qed.

Lemma lstrip_idem s : lstrip (lstrip s) = lstrip s.
Proof.
  induction s as [|c s IH]; [reflexivity|]. simpl.
  destruct (is_space c) eqn:E; [exact IH|]. simpl. now rewrite E.
Qed.

Lemma strip_stripped s : stripped (strip s).
Proof.
  unfold stripped, strip. split.
  - apply lstrip_idem.
  - apply rstrip_lstrip, rstrip_idem.
Qed.

Lemma stripped_strip s : stripped s -> strip s = s.
Proof. intros [H1 H2]. unfold strip. now rewrite H2. Qed.

Lemma lstrip_length s : (String.length (lstrip s) <= String.length s)%nat.
Proof.
  induction s as [|c s IH]; simpl; [lia|]. destruct (is_space c); simpl; lia.
Qed.

Lemma lstrip_head c s : lstrip (String c s) = String c s -> is_space c = false.
Proof.
  simpl. destruct (is_space c); [|reflexivity]. intros H.
  pose proof (lstrip_length s) as L. rewrite H in L. simpl in L. lia.
Qed.

(** *** Spaces to underscores *)

Lemma underscore_space x : is_space x = false -> underscore x = x.
Proof.
  unfold underscore. destruct (Ascii.eqb_spec x " ") as [->|]; [discriminate | reflexivity].
Qed.

Lemma underscore_idem x : underscore (underscore x) = underscore x.
Proof.
  unfold underscore. destruct (Ascii.eqb x " ") eqn:E; [reflexivity | now rewrite E].
Qed.

Lemma underscore_bracket x : underscore x = "["%char -> x = "["%char.
Proof.
  unfold underscore. destruct (Ascii.eqb x " "); [discriminate | trivial].
Qed.

Lemma lower_is_underscore x : lower_ascii x = "_"%char -> x = "_"%char.
Proof.
  destruct x as [[] [] [] [] [] [] [] []]; vm_compute; congruence.
Qed.

Lemma lower_underscore x c :
  c <> "_"%char -> lower_ascii (underscore x) = c -> lower_ascii x = c.
Proof.
  unfold underscore. destruct (Ascii.eqb x " "); [|trivial].
  intros Hc H. vm_compute in H. congruence.
Qed.

Lemma lower_underscore_inv x :
  lower_ascii (underscore x) = "_"%char -> x = " "%char \/ x = "_"%char.
Proof.
  unfold underscore. destruct (Ascii.eqb_spec x " ") as [->|]; [now left|].
  intros H. right. now apply lower_is_underscore.
Qed.

Lemma map_underscore_no_space s : has_char " " (map_chars underscore s) = false.
Proof.
  induction s as [|c s IH]; [reflexivity|].
  cbn [map_chars has_char]. rewrite IH, orb_false_r.
  unfold underscore. destruct (Ascii.eqb_spec c " ") as [->|n]; [reflexivity|].
  apply Ascii.eqb_neq. congruence.
Qed.

Lemma map_underscore_stripped s : stripped s -> stripped (map_chars underscore s).
Proof.
  intros [Hl Hr]. split.
  - destruct s as [|c s]; [reflexivity|]. apply lstrip_head in Hl.
    simpl. now rewrite (underscore_space _ Hl), Hl.
  - clear Hl. induction s as [|c s IH]; [reflexivity|].
    pose proof (rstrip_tail _ _ Hr) as Ht. specialize (IH Ht).
    cbn [map_chars rstrip]. rewrite IH. destruct s as [|d s]; [|reflexivity].
    simpl in *. destruct (is_space c) eqn:E; [discriminate|].
    now rewrite (underscore_space _ E), E.
Qed.

(** A needle without underscore found after the cleanup was there
    before. *)
Lemma lower_underscore_needle n m :
  has_char "_" n = false ->
  map_chars (fun x => lower_ascii (underscore x)) m = n -> lower m = n.
Proof.
  revert n. induction m as [|x m IH]; intros n Hn H; [exact H|].
  destruct n as [|c n]; [discriminate|]. cbn [map_chars] in H. injection H as Hc H.
  cbn [has_char] in Hn. apply orb_false_iff in Hn as [Hc' Hn].
  cbn [lower]. f_equal.
  - apply lower_underscore; [|exact Hc]. apply Ascii.eqb_neq in Hc'. congruence.
  - now apply IH.
Qed.

Lemma sub_trans a b c : sub a b -> sub b c -> sub a c.
Proof. intros H [p [q ->]]. now apply sub_in_part. Qed.

Lemma sub_lower_mono m t : sub m t -> sub (lower m) (lower t).
Proof.
  intros [a [b ->]]. rewrite !lower_map, !map_chars_app. now exists (map_chars lower_ascii a), (map_chars lower_ascii b).
Qed.

Lemma lower_app a b : lower (a ++ b) = lower a ++ lower b.
Proof. now rewrite !lower_map, map_chars_app. Qed.

End StrFacts.

(** ** Header names *)

Module NameFacts.
Import Str StrFacts.

Lemma clean_name_canonical col : clean_name col = canonical_name col.
Proof.
  unfold clean_name, canonical_name, generic_cleanup.
  rewrite replace_map, (orb_comm (contains "grid_load" _)). reflexivity.
Qed.

Lemma generic_cleanup_sub_source col :
  exists t, sub t col /\ generic_cleanup col = map_chars underscore t /\ stripped t
            /\ has_char "[" t = false.
Proof.
  exists (strip (split_head "[" col)). repeat split.
  - eapply sub_trans; [apply strip_sub | apply split_head_sub].
  - apply strip_stripped.
  - apply strip_stripped.
  - eapply has_char_sub; [apply strip_sub | apply split_head_no_sep].
Qed.

Lemma generic_cleanup_idem col :
  generic_cleanup (generic_cleanup col) = generic_cleanup col.
Proof.
  destruct (generic_cleanup_sub_source col) as [t [_ [E [St Hb]]]].
  rewrite E. unfold generic_cleanup at 1.
  rewrite split_head_id.
  - rewrite stripped_strip by now apply map_underscore_stripped.
    rewrite map_chars_map. induction t as [|c t IH]; [reflexivity|].
    cbn [map_chars]. rewrite underscore_idem. f_equal.
    clear. induction t as [|c t IH]; [reflexivity|].
    cbn [map_chars]. now rewrite underscore_idem, IH.
  - apply has_char_map_chars; [apply underscore_bracket | exact Hb].
Qed.

(** A needle without underscore in the cleaned name is in the header. *)
Lemma generic_cleanup_needle n col :
  has_char "_" n = false ->
  sub n (lower (generic_cleanup col)) -> sub n (lower col).
Proof.
  intros Hn H.
  destruct (generic_cleanup_sub_source col) as [t [Ht [E _]]].
  rewrite E, lower_map, map_chars_map in H.
  destruct (sub_map_chars _ _ _ H) as [m [Hm Em]].
  apply lower_underscore_needle in Em; [|exact Hn]. subst n.
  apply sub_lower_mono. eapply sub_trans; eassumption.
Qed.

Lemma generic_cleanup_grid col :
  sub "grid_load" (lower (generic_cleanup col)) ->
  sub "grid_load" (lower col) \/ sub "grid load" (lower col).
Proof.
  intros H.
  destruct (generic_cleanup_sub_source col) as [t [Ht [E _]]].
  rewrite E, lower_map, map_chars_map in H.
  destruct (sub_map_chars _ _ _ H) as [m [Hm Em]].
  change "grid_load" with ("grid" ++ "_" ++ "load") in Em.
  destruct (map_chars_eq_app _ _ _ _ Em) as [m1 [r [-> [E1 Er]]]].
  destruct (map_chars_eq_app _ _ _ _ Er) as [m2 [m3 [-> [E2 E3]]]].
  apply lower_underscore_needle in E1; [|reflexivity].
  apply lower_underscore_needle in E3; [|reflexivity].
  destruct m2 as [|x [|y m2]]; try discriminate.
  cbn [map_chars] in E2. injection E2 as E2.
  pose proof (sub_lower_mono _ _ (sub_trans _ _ _ Hm Ht)) as S.
  rewrite !lower_app, E1, E3 in S. cbn [lower] in S.
  destruct (lower_underscore_inv _ E2) as [-> | ->]; [right | left]; exact S.
Qed.

Lemma lower_is_space x : lower_ascii x = " "%char -> x = " "%char.
Proof.
  destruct x as [[] [] [] [] [] [] [] []]; vm_compute; congruence.
Qed.

Lemma generic_cleanup_no_space n col :
  has_char " " n = true -> ~ sub n (lower (generic_cleanup col)).
Proof.
  intros Hn H.
  assert (has_char " " (lower (generic_cleanup col)) = false) as F.
  { rewrite lower_map. apply has_char_map_chars; [apply lower_is_space|].
    unfold generic_cleanup. apply map_underscore_no_space. }
  rewrite (has_char_sub _ _ _ H F) in Hn. discriminate.
Qed.

Lemma clean_name_idem col : clean_name (clean_name col) = clean_name col.
Proof.
  rewrite !clean_name_canonical. unfold canonical_name at 2 3.
  destruct (contains "residual" (lower col)) eqn:R; [reflexivity|].
  destruct (contains "grid load" (lower col) || contains "grid_load" (lower col)) eqn:G;
    [reflexivity|].
  apply orb_false_iff in G as [G1 G2].
  unfold canonical_name.
  assert (contains "residual" (lower (generic_cleanup col)) = false) as ->.
  { apply contains_false_sub. intros H. apply generic_cleanup_needle in H; [|reflexivity].
    apply contains_sub in H. congruence. }
  assert (contains "grid load" (lower (generic_cleanup col)) = false) as ->.
  { apply contains_false_sub. now apply generic_cleanup_no_space. }
  assert (contains "grid_load" (lower (generic_cleanup col)) = false) as ->.
  { apply contains_false_sub. intros H.
    destruct (generic_cleanup_grid _ H) as [H'|H']; apply contains_sub in H'; congruence. }
  cbn [orb]. apply generic_cleanup_idem.
Qed.

(** The canonical name of a header that is no date label is none. *)
Lemma clean_name_not_date col :
  is_date_label col = false -> is_date_label (clean_name col) = false.
Proof.
  unfold is_date_label. rewrite clean_name_canonical, !orb_false_iff.
  intros [D T]. unfold canonical_name.
  destruct (contains "residual" (lower col)); [now vm_compute|].
  destruct (contains "grid load" (lower col) || contains "grid_load" (lower col));
    [now vm_compute|].
  split; apply contains_false_sub; intros H;
    apply generic_cleanup_needle in H; try reflexivity;
    apply contains_sub in H; congruence.
Qed.

End NameFacts.

(** ** Frames *)

Module FrameFacts.

Lemma select_filter {A} (p : A -> bool) (l : list A) :
  select (map p l) l = filter p l.
Proof. induction l as [|x l IH]; simpl; [reflexivity|]. now rewrite IH. Qed.

Lemma select_length {A B} (mask : list bool) (l : list A) (l' : list B) :
  List.length l = List.length l' ->
  List.length (select mask l) = List.length (select mask l').
Proof.
  revert l l'. induction mask as [|b mask IH]; intros [|x l] [|y l'] H;
    try reflexivity; try discriminate.
  injection H as H. simpl. destruct b; simpl; auto.
Qed.

Lemma select_Forall {A} (P : A -> Prop) mask (l : list A) :
  Forall P l -> Forall P (select mask l).
Proof.
  revert l. induction mask as [|b mask IH]; intros [|x l] H; simpl; auto.
  inversion H; subst. destruct b; auto.
Qed.

Lemma get_column_name label df c : get_column label df = Some c -> name c = label.
Proof.
  unfold get_column. intros H. apply find_some in H as [_ H].
  apply String.eqb_eq in H. now symmetry.
Qed.

Lemma get_column_In label df c : get_column label df = Some c -> In c (columns df).
Proof. unfold get_column. intros H. now apply find_some in H. Qed.

Lemma has_column_get label df :
  has_column label df = true <-> exists c, get_column label df = Some c.
Proof.
  unfold has_column, get_column, labels. induction (columns df) as [|c l IH]; simpl.
  - split; [discriminate | intros [c H]; discriminate].
  - destruct (String.eqb label (name c)); simpl; [|exact IH].
    split; [intros _; now exists c | reflexivity].
Qed.

Lemma has_column_none label df :
  has_column label df = false <-> get_column label df = None.
Proof.
  pose proof (has_column_get label df) as H.
  destruct (has_column label df), (get_column label df) as [c|]; split; intros E;
    try reflexivity; try discriminate.
  - destruct (proj1 H eq_refl) as [c Hc]. discriminate.
  - discriminate (proj2 H (ex_intro _ c eq_refl)).
Qed.

Lemma has_column_In label df : has_column label df = true <-> In label (labels df).
Proof.
  unfold has_column. rewrite existsb_exists. split.
  - intros [x [Hx E]]. apply String.eqb_eq in E. now subst.
  - intros H. exists label. split; [exact H | apply String.eqb_refl].
Qed.

(** *** [df[label] = vals] *)

Lemma find_replaced label (new : Series) (cols : list Series) :
  name new = label ->
  existsb (String.eqb label) (map name cols) = true ->
  find (fun c => String.eqb label (name c))
       (map (fun c => if String.eqb label (name c) then new else c) cols)
  = Some new.
Proof.
  intros Hn. induction cols as [|c cols IH]; simpl; [discriminate|].
  destruct (String.eqb label (name c)) eqn:E; simpl.
  - intros _. now rewrite Hn, String.eqb_refl.
  - intros H. rewrite E. auto.
Qed.

Lemma find_appended label (new : Series) (cols : list Series) :
  name new = label ->
  existsb (String.eqb label) (map name cols) = false ->
  find (fun c => String.eqb label (name c)) (cols ++ [new]) = Some new.
Proof.
  intros Hn. induction cols as [|c cols IH]; simpl.
  - intros _. now rewrite Hn, String.eqb_refl.
  - destruct (String.eqb label (name c)); simpl; [discriminate | auto].
Qed.

Lemma filter_replaced label (new : Series) (cols : list Series) :
  name new = label ->
  filter (fun c => negb (String.eqb label (name c)))
         (map (fun c => if String.eqb label (name c) then new else c) cols)
  = filter (fun c => negb (String.eqb label (name c))) cols.
Proof.
  intros Hn. induction cols as [|c cols IH]; simpl; [reflexivity|].
  destruct (String.eqb label (name c)) eqn:E; simpl.
  - now rewrite Hn, String.eqb_refl.
  - now rewrite E, IH.
Qed.

Lemma filter_appended label (new : Series) (cols : list Series) :
  name new = label ->
  filter (fun c => negb (String.eqb label (name c))) (cols ++ [new])
  = filter (fun c => negb (String.eqb label (name c))) cols.
Proof.
  intros Hn. rewrite filter_app. simpl.
  now rewrite Hn, String.eqb_refl, app_nil_r.
Qed.

Lemma map_name_replaced label (new : Series) (cols : list Series) :
  name new = label ->
  map name (map (fun c => if String.eqb label (name c) then new else c) cols)
  = map name cols.
Proof.
  intros Hn. induction cols as [|c cols IH]; simpl; [reflexivity|].
  rewrite IH. destruct (String.eqb_spec label (name c)); congruence.
Qed.

(** What an assignment leaves: the row labels, the other columns and
    the order of the headers. *)
Lemma assign_ok label d vals df df1 :
  assign label d vals df = Ok df1 ->
  List.length vals = nrows df /\
  index df1 = index df /\
  get_column label df1 = Some (mkSeries label d vals) /\
  filter (fun c => negb (String.eqb label (name c))) (columns df1)
  = filter (fun c => negb (String.eqb label (name c))) (columns df) /\
  labels df1 = (if has_column label df then labels df
                else (labels df ++ [label])%list).
Proof.
  unfold assign.
  destruct (Nat.eqb (List.length vals) (nrows df)) eqn:L; simpl; [|discriminate].
  apply Nat.eqb_eq in L. intros Hok. split; [exact L|]. revert Hok.
  destruct (has_column label df) eqn:H; intros [= <-]; unfold get_column, labels; simpl.
  - split; [reflexivity|]. split; [now apply find_replaced|].
    split; [now apply filter_replaced | now apply map_name_replaced].
  - split; [reflexivity|]. split; [now apply find_appended|].
    split; [now apply filter_appended | now rewrite map_app].
Qed.

Lemma assign_total label d vals df :
  List.length vals = nrows df -> exists df1, assign label d vals df = Ok df1.
Proof.
  intros L. unfold assign. rewrite L, Nat.eqb_refl. simpl.
  destruct (has_column label df); eauto.
Qed.

(** *** Renaming *)

Lemma labels_rename_column old new df :
  labels (rename_column old new df)
  = map (fun l => if String.eqb l old then new else l) (labels df).
Proof.
  unfold labels, rename_column. simpl. rewrite !map_map.
  apply map_ext. intros c. now destruct (String.eqb (name c) old).
Qed.

Lemma values_rename_column old new df :
  map values (columns (rename_column old new df)) = map values (columns df).
Proof.
  unfold rename_column. simpl. rewrite map_map.
  apply map_ext. intros c. now destruct (String.eqb (name c) old).
Qed.

Lemma dtypes_rename_column old new df :
  map dtype_of (columns (rename_column old new df)) = map dtype_of (columns df).
Proof.
  unfold rename_column. simpl. rewrite map_map.
  apply map_ext. intros c. now destruct (String.eqb (name c) old).
Qed.

Lemma fold_rename_labels cols df :
  labels (fold_left rename_step cols df)
  = fold_left (fun ls col => map (renamed col) ls) cols (labels df).
Proof.
  revert df. induction cols as [|col cols IH]; intros df; [reflexivity|].
  simpl. rewrite IH. unfold rename_step. now rewrite labels_rename_column.
Qed.

Lemma fold_rename_frame cols df :
  index (fold_left rename_step cols df) = index df /\
  map values (columns (fold_left rename_step cols df)) = map values (columns df) /\
  map dtype_of (columns (fold_left rename_step cols df)) = map dtype_of (columns df).
Proof.
  revert df. induction cols as [|col cols IH]; intros df; [now repeat split|].
  simpl. destruct (IH (rename_step df col)) as [I [V D]].
  rewrite I, V, D. unfold rename_step.
  now rewrite values_rename_column, dtypes_rename_column.
Qed.

Lemma rename_inv_step visited col orig cur :
  rename_inv visited orig cur ->
  rename_inv (visited ++ [col]) orig (renamed col cur).
Proof.
  unfold rename_inv, renamed. intros [-> | [-> Hn]].
  - left. destruct (String.eqb_spec (clean_name orig) col) as [<-|]; [|reflexivity].
    apply NameFacts.clean_name_idem.
  - destruct (String.eqb_spec orig col) as [<-|Hne]; [now left|].
    right. split; [reflexivity|]. rewrite in_app_iff. simpl. intuition congruence.
Qed.

Lemma rename_inv_fold todo : forall visited origs curs,
  Forall2 (rename_inv visited) origs curs ->
  Forall2 (rename_inv (visited ++ todo)) origs
          (fold_left (fun ls col => map (renamed col) ls) todo curs).
Proof.
  induction todo as [|col todo IH]; intros visited origs curs H.
  - now rewrite app_nil_r.
  - simpl. replace (visited ++ col :: todo)%list with ((visited ++ [col]) ++ todo)%list
      by now rewrite <- app_assoc.
    apply IH. clear IH. induction H; simpl; constructor; auto.
    now apply rename_inv_step.
Qed.

(** The loop of lines 81-91 gives every header its canonical name. *)
Lemma rename_all_labels df : labels (rename_all df) = map clean_name (labels df).
Proof.
  unfold rename_all. change (fun d col => rename_column col (clean_name col) d)
    with rename_step. rewrite fold_rename_labels.
  assert (Forall2 (rename_inv []) (labels df) (labels df)) as H0.
  { induction (labels df); constructor; auto. right. auto. }
  apply (rename_inv_fold (labels df)) in H0. simpl in H0.
  remember (fold_left _ _ _) as curs eqn:E. clear E.
  assert (forall origs, Forall2 (rename_inv (labels df)) origs curs ->
                        incl origs (labels df) -> curs = map clean_name origs) as G.
  { clear. intros origs H. induction H as [|o c origs curs Hoc H IH]; intros Hin;
      [reflexivity|]. simpl. f_equal.
    - destruct Hoc as [-> | [-> Hn]]; [reflexivity|].
      exfalso. apply Hn, Hin. now left.
    - apply IH. intros x Hx. apply Hin. now right. }
  apply G; [exact H0 | apply incl_refl].
Qed.

Lemma rename_all_frame df :
  index (rename_all df) = index df /\
  map values (columns (rename_all df)) = map values (columns df) /\
  map dtype_of (columns (rename_all df)) = map dtype_of (columns df).
Proof. apply fold_rename_frame. Qed.

(** *** Dropping the date columns *)

Lemma labels_filter (p : string -> bool) (cols : list Series) :
  map name (filter (fun c => p (name c)) cols) = filter p (map name cols).
Proof.
  induction cols as [|c cols IH]; simpl; [reflexivity|].
  destruct (p (name c)); simpl; now rewrite IH.
Qed.

Lemma existsb_filter (p : string -> bool) x l :
  In x l -> existsb (String.eqb x) (filter p l) = p x.
Proof.
  intros Hx. destruct (p x) eqn:E.
  - apply existsb_exists. exists x. split; [|apply String.eqb_refl].
    apply filter_In. auto.
  - destruct (existsb _ _) eqn:F; [|reflexivity].
    apply existsb_exists in F as [y [Hy Ey]]. apply String.eqb_eq in Ey. subst y.
    apply filter_In in Hy. destruct Hy. congruence.
Qed.

Lemma drop_date_columns_columns df :
  columns (drop_date_columns df)
  = filter (fun c => negb (is_date_label (name c))) (columns df).
Proof.
  unfold drop_date_columns, drop_columns. simpl.
  apply filter_ext_in. intros c Hc. f_equal.
  apply existsb_filter. unfold labels. now apply in_map.
Qed.

Lemma drop_date_columns_labels df :
  labels (drop_date_columns df)
  = filter (fun l => negb (is_date_label l)) (labels df).
Proof.
  unfold labels at 1. rewrite drop_date_columns_columns.
  apply (labels_filter (fun l => negb (is_date_label l))).
Qed.

End FrameFacts.

(** ** Normalization *)

Module NormalizeFacts.
Import FrameFacts.

Lemma for_each_inv {A S} (P : S -> Prop) (body : A -> S -> result S) l :
  (forall x s s', body x s = Ok s' -> P s -> P s') ->
  forall s s', for_each body l s = Ok s' -> P s -> P s'.
Proof.
  intros Hb. induction l as [|x l IH]; intros s s' H Hs; simpl in H.
  - now injection H as <-.
  - destruct (body x s) as [s1|e] eqn:E; [|discriminate]. simpl in H.
    eapply IH; [exact H|]. eapply Hb; eassumption.
Qed.

Lemma convert_column_ok col df df' :
  convert_column col df = Ok df' ->
  labels df' = labels df /\ index df' = index df.
Proof.
  unfold convert_column.
  destruct (1 <? Str.count_label col (labels df))%nat; [discriminate|].
  destruct (get_column col df) as [c|] eqn:G; [|discriminate].
  destruct (dtype_is_object (dtype_of c)); [|now intros [= <-]].
  destruct (apply parse_german_number (values c)) as [vals|e]; [|discriminate].
  simpl. intros H. apply assign_ok in H as [_ [I [_ [_ L]]]].
  assert (has_column col df = true) as Hc by (apply has_column_get; eauto).
  rewrite Hc in L. auto.
Qed.

Lemma convert_all_ok df df' :
  convert_all df = Ok df' -> labels df' = labels df /\ index df' = index df.
Proof.
  unfold convert_all. intros H.
  apply (for_each_inv (fun d => labels d = labels df /\ index d = index df)) in H; auto.
  intros x s s' Hx [L I]. apply convert_column_ok in Hx as [L' I']. split; congruence.
Qed.

Lemma dropna_ok label df df' :
  dropna label df = Ok df' ->
  exists c, get_column label df = Some c /\
    let keep := map (fun v => negb (isna v)) (values c) in
    index df' = select keep (index df) /\
    columns df' = map (map_values (select keep)) (columns df).
Proof.
  unfold dropna. destruct (get_column label df) as [c|]; [|discriminate].
  intros [= <-]. now exists c.
Qed.

Lemma find_map_values label f cols :
  find (fun c => String.eqb label (name c)) (map (map_values f) cols)
  = option_map (map_values f) (find (fun c => String.eqb label (name c)) cols).
Proof.
  induction cols as [|c l IH]; [reflexivity|].
  simpl. destruct (String.eqb label (name c)); [reflexivity | exact IH].
Qed.

Lemma filter_not_date_timestamp (l : list string) :
  filter (fun x => negb (is_date_label x))
         (filter (fun x => negb (String.eqb "timestamp" x)) l)
  = filter (fun x => negb (is_date_label x)) l.
Proof.
  induction l as [|x l IH]; [reflexivity|]. cbn [filter].
  destruct (String.eqb_spec "timestamp" x) as [<-|]; cbn [negb filter].
  - replace (is_date_label "timestamp") with true by (now vm_compute).
    exact IH.
  - destruct (is_date_label x); cbn [negb]; now rewrite IH.
Qed.

Section WithOracle.

Variable to_datetime : list value -> result (list (option Timestamp)).


(** A frame that normalizes has a column of instants; its rows are
    those whose instant is no [NaT], labelled by it, and its headers
    are the canonical names of the headers that are no date label. *)
Lemma normalize_ok df df' :
  normalize to_datetime df = Ok df' ->
  exists ts, instants_of to_datetime df ts /\
    List.length ts = nrows df /\
    index df' = filter (fun v => negb (isna v)) ts /\
    labels df' = map clean_name
                     (filter (fun l => negb (is_date_label l)) (labels df)).
Proof.
  unfold normalize. intros H.
  destruct (with_timestamp to_datetime df) as [df1|] eqn:W; [|discriminate].
  simpl in H. destruct (dropna "timestamp" df1) as [df2|] eqn:D; [|discriminate].
  simpl in H. destruct (set_index "timestamp" df2) as [df3|] eqn:S; [|discriminate].
  simpl in H. apply convert_all_ok in H as [L I].
  rewrite rename_all_labels, drop_date_columns_labels in L.
  destruct (rename_all_frame (drop_date_columns df3)) as [I' _].
  rewrite I' in I. change (index (drop_date_columns df3)) with (index df3) in I.
  apply dropna_ok in D as [c1 [G1 [I2 C2]]].
  simpl in I2, C2. unfold set_index, get_column in S.
  rewrite C2, find_map_values in S. fold (get_column "timestamp" df1) in S.
  rewrite G1 in S. simpl in S. injection S as <-. simpl in I, L.
  rewrite select_filter in I.
  assert (labels df' = map clean_name (filter (fun l => negb (is_date_label l)) (labels df1))) as L1.
  { rewrite L. f_equal. unfold labels at 1. simpl.
    rewrite (labels_filter (fun l => negb (String.eqb "timestamp" l))).
    rewrite map_map. simpl. change (map (fun x => name x) (columns df1)) with (labels df1).
    apply filter_not_date_timestamp. }
  clear L I2 C2.
  unfold with_timestamp in W. unfold instants_of.
  destruct (get_column "Start date" df) as [c|] eqn:GS.
  - apply assign_ok in W as [Len [_ [G [_ Lb]]]].
    rewrite G in G1. injection G1 as <-. simpl in I.
    exists (map to_datetime_format (values c)). repeat split; auto.
    rewrite L1, Lb. destruct (has_column "timestamp" df); [reflexivity|].
    now rewrite filter_app, app_nil_r.
  - destruct (get_column "timestamp" df) as [c|] eqn:GT.
    + destruct (to_datetime (values c)) as [l|] eqn:T; [|discriminate]. simpl in W.
      apply assign_ok in W as [Len [_ [G [_ Lb]]]].
      rewrite G in G1. injection G1 as <-. simpl in I.
      exists (map of_instant l). repeat split; eauto.
      rewrite L1, Lb. destruct (has_column "timestamp" df); [reflexivity|].
      now rewrite filter_app, app_nil_r.
    + injection W as <-. congruence.
Qed.

End WithOracle.

End NormalizeFacts.

(* ================================================================= *)
(** ** The locale number parser *)

Lemma delete_char_length c s :
  Str.has_char c s = true ->
  (String.length (Str.delete_char c s) < String.length s)%nat.
Proof.
  assert (forall t, String.length (Str.delete_char c t) <= String.length t)%nat as Le.
  { induction t as [|x t IH]; simpl; [lia|]. destruct (Ascii.eqb c x); simpl; lia. }
  induction s as [|x s IH]; [discriminate|]. cbn [Str.has_char Str.delete_char].
  destruct (Ascii.eqb c x); simpl.
  - intros _. specialize (Le s). lia.
  - intros H. specialize (IH H). lia.
Qed.

Lemma parse_german_number_str s :
  parse_german_number (VStr s) = Ok (german_decimal s).
Proof.
  unfold parse_german_number, german_decimal. cbn [isna].
  rewrite StrFacts.replace_delete, StrFacts.replace_map.
  now destruct (Float.of_string _).
Qed.

Lemma parse_german_number_representable x :
  representable x -> parse_german_number x = Ok (german_reading x).
Proof.
  intros Hx. destruct x as [|f|n|s|t|]; try reflexivity.
  - now destruct f.
  - unfold parse_german_number, float_of_int. cbn [isna german_reading].
    simpl in Hx. now rewrite Hx.
  - apply parse_german_number_str.
Qed.

(** C1, as amended.  Every value that [float] converts without overflow
    is read by [parse_german_number] without an exception: a float is
    returned unchanged, an int as its nearest double, a text by deleting
    every point and taking the comma as the decimal point, with the
    missing value for a text that is no number; [None], [NaT] and NaN give
    the missing value.  ["1.234,56"] reads as the double nearest to
    1234.56, ["42"] as 42.0, and the empty text and ["abc"] as missing.  An
    int that overflows the doubles raises [OverflowError]. *)
Theorem parse_german_number_reading :
  (forall x, representable x -> parse_german_number x = Ok (german_reading x)) /\
  (forall n, ~ representable (VInt n) ->
             exists msg, parse_german_number (VInt n) = Raise (OverflowError msg)) /\
  (forall s, exists f, parse_german_number (VStr s) = Ok f) /\
  (parse_german_number VNone = Ok Float.nan /\
   parse_german_number VNaT = Ok Float.nan) /\
  parse_german_number (VFloat Float.nan) = Ok Float.nan /\
  (exists f q, parse_german_number (VStr "1.234,56") = Ok f /\ Float.to_Q f = Some q /\
               (Qabs (q - (123456 # 100)) <= 1 # (2 ^ 43))%Q) /\
  (exists f q, parse_german_number (VStr "42") = Ok f /\ Float.to_Q f = Some q /\
               (q == 42 # 1)%Q) /\
  parse_german_number (VStr "") = Ok Float.nan /\
  parse_german_number (VStr "abc") = Ok Float.nan.
Proof.
  split; [|split; [|split; [|split; [|split; [|split; [|split; [|split]]]]]]].
  - exact parse_german_number_representable.
  - intros n Hn. unfold parse_german_number, float_of_int. cbn [isna].
    simpl in Hn. destruct (Float.is_infinite (Float.of_Z n)); [eauto | congruence].
  - intros s. rewrite parse_german_number_str. eauto.
  - split; reflexivity.
  - reflexivity.
  - eexists. eexists. split; [vm_compute; reflexivity|]. split; [reflexivity|].
    vm_compute. discriminate.
  - eexists. eexists. split; [vm_compute; reflexivity|]. split; reflexivity.
  - reflexivity.
  - now vm_compute.
Qed.

Lemma parse_german_number_reading_witness :
  representable (VInt 42) /\
  parse_german_number (VInt 42) = Ok (german_reading (VInt 42)).
Proof.
  split; [reflexivity|].
  apply (proj1 parse_german_number_reading (VInt 42)). reflexivity.
Defined.

(** C1, as stated, fails on an int beyond the doubles: [float(2**1024)]
    raises [OverflowError]. *)
Lemma parse_german_number_int_overflow :
  parse_german_number (VInt (2 ^ 1024))
  = Raise (OverflowError "int too large to convert to float") /\
  ~ exists f, parse_german_number (VInt (2 ^ 1024)) = Ok f.
Proof.
  assert (parse_german_number (VInt (2 ^ 1024))
          = Raise (OverflowError "int too large to convert to float")) as E
    by (vm_compute; reflexivity).
  split; [exact E|]. intros [f H]. rewrite E in H. discriminate.
Qed.

(** C10.  A text with a point and no comma is parsed with its points
    deleted: the result is the float of the shorter, point-free text (the
    missing value when that is no number).  So ["1.5"] gives 15.0, which
    is not the double that [float("1.5")] is. *)
Theorem point_without_comma_is_deleted :
  (forall s, Str.contains "." s = true -> Str.contains "," s = false ->
     let t := Str.delete_char "." s in
     (String.length t < String.length s)%nat /\
     Str.contains "." t = false /\
     parse_german_number (VStr s)
     = Ok (match Float.of_string t with Some f => f | None => Float.nan end)) /\
  parse_german_number (VStr "1.5") = Ok (Float.of_Z 15) /\
  (exists q, Float.to_Q (Float.of_Z 15) = Some q /\ (q == 15 # 1)%Q) /\
  (exists f q, Float.of_string "1.5" = Some f /\ Float.to_Q f = Some q /\
               (q == 3 # 2)%Q /\ parse_german_number (VStr "1.5") <> Ok f).
Proof.
  split; [|split; [|split]].
  - intros s Hp Hc t. rewrite <- StrFacts.has_char_contains in *.
    split; [now apply delete_char_length|].
    split; [apply StrFacts.has_char_delete|].
    rewrite parse_german_number_str. unfold german_decimal. fold t.
    rewrite StrFacts.map_chars_id; [reflexivity|].
    intros x Hx. destruct (Ascii.eqb_spec x ",") as [->|]; [|reflexivity].
    unfold t in Hx. rewrite StrFacts.has_char_delete_other in Hx by exact Hc.
    discriminate.
  - vm_compute. reflexivity.
  - eexists. split; reflexivity.
  - eexists. eexists. split; [vm_compute; reflexivity|]. split; [reflexivity|].
    split; [reflexivity|]. vm_compute. discriminate.
Qed.

Lemma point_without_comma_is_deleted_witness :
  Str.contains "." "1.5" = true /\ Str.contains "," "1.5" = false /\
  parse_german_number (VStr "1.5")
  = Ok (match Float.of_string "15" with Some f => f | None => Float.nan end).
Proof.
  split; [reflexivity|]. split; [reflexivity|].
  apply (proj1 point_without_comma_is_deleted "1.5"); reflexivity.
Defined.

(* ================================================================= *)
(** ** The dataset merger *)

Module JoinFacts.

Lemma map_seq_nth {A B} (F : A -> B) (l : list A) (d : A) :
  map F l = map (fun k => F (nth k l d)) (seq 0 (List.length l)).
Proof.
  induction l as [|x l IH]; [reflexivity|].
  simpl. f_equal. rewrite <- seq_shift, map_map. exact IH.
Qed.

Lemma nth_gather k ps l :
  (k < List.length ps)%nat -> nth k (gather ps l) VNone = nth (nth k ps O) l VNone.
Proof.
  intros H. unfold gather.
  rewrite (nth_indep (map (fun p => nth p l VNone) ps) VNone (nth O l VNone))
    by now rewrite length_map.
  apply (map_nth (fun p => nth p l VNone)).
Qed.

Lemma length_gather ps l : List.length (gather ps l) = List.length ps.
Proof. apply length_map. Qed.

Lemma label_eqb_eq x y : label_eqb x y = true <-> x = y.
Proof. unfold label_eqb. destruct (value_eq_dec x y); split; congruence. Qed.

Lemma in_positions x l : forall i p,
  In p (positions x i l) <->
  exists k, p = (i + k)%nat /\ (k < List.length l)%nat /\ nth k l VNone = x.
Proof.
  induction l as [|y l IH]; intros i p; simpl.
  - split; [tauto | intros [k [_ [H _]]]; lia].
  - assert (In p (positions x (S i) l) <->
            exists k, p = (i + S k)%nat /\ (k < List.length l)%nat /\ nth k l VNone = x) as T.
    { rewrite IH. split; intros [k [E H]]; exists k; (split; [lia | exact H]). }
    destruct (label_eqb x y) eqn:E.
    + apply label_eqb_eq in E. subst y. simpl. rewrite T. split.
      * intros [<- | [k [-> [H1 H2]]]].
        -- exists O. repeat split; [lia | lia].
        -- exists (S k). repeat split; [lia | exact H2].
      * intros [[|k] [-> [H1 H2]]]; [left; lia|].
        right. exists k. repeat split; [lia | exact H2].
    + rewrite T. split.
      * intros [k [-> [H1 H2]]]. exists (S k). repeat split; [lia | exact H2].
      * intros [[|k] [-> [H1 H2]]].
        -- simpl in H2. subst y.
           assert (label_eqb x x = true) by now apply label_eqb_eq. congruence.
        -- exists k. repeat split; [lia | exact H2].
Qed.

Lemma in_join_pairs li ri : forall i p q,
  In (p, q) (join_pairs i li ri) <->
  exists k, p = (i + k)%nat /\ (k < List.length li)%nat /\
            (q < List.length ri)%nat /\ nth q ri VNone = nth k li VNone.
Proof.
  induction li as [|x li IH]; intros i p q; simpl.
  - split; [tauto | intros [k [_ [H _]]]; lia].
  - rewrite in_app_iff, in_map_iff, IH. split.
    + intros [[j [E Hj]] | [k [-> [H1 [H2 H3]]]]].
      * injection E as <- <-. apply in_positions in Hj as [k [-> [H1 H2]]].
        exists O. simpl. repeat split; [lia | lia | exact H1 | exact H2].
      * exists (S k). repeat split; [lia | lia | exact H2 | exact H3].
    + intros [[|k] [-> [H1 [H2 H3]]]].
      * left. exists q. split; [f_equal; lia|].
        apply in_positions. exists q. simpl in H3. auto.
      * right. exists k. repeat split; [lia | lia | exact H2 | exact H3].
Qed.

Lemma in_rows d t r :
  In (t, r) (rows d) <->
  exists k, (k < nrows d)%nat /\ t = nth k (index d) VNone /\ r = cells d k.
Proof.
  unfold rows. rewrite in_map_iff. split.
  - intros [k [E Hk]]. apply in_seq in Hk. injection E as <- <-.
    exists k. repeat split. lia.
  - intros [k [Hk [-> ->]]]. exists k. split; [reflexivity|].
    apply in_seq. lia.
Qed.

Lemma index_rows d : map fst (rows d) = index d.
Proof.
  unfold rows. rewrite map_map. simpl. symmetry.
  rewrite <- (map_id (index d)) at 1. apply (map_seq_nth (fun x => x)).
Qed.

Lemma in_index_rows d t : In t (index d) <-> exists r, In (t, r) (rows d).
Proof.
  rewrite <- index_rows, in_map_iff. split.
  - intros [[t' r] [<- H]]. now exists r.
  - intros [r H]. now exists (t, r).
Qed.

Lemma join_ok a b m :
  join a b = Ok m ->
  overlap (labels a) (labels b) = false /\
  labels m = (labels a ++ labels b)%list /\
  rows m = map (fun p => (nth (fst p) (index a) VNone,
                          (cells a (fst p) ++ cells b (snd p))%list))
               (join_pairs 0 (index a) (index b)).
Proof.
  unfold join. destruct (overlap (labels a) (labels b)); [discriminate|].
  intros [= <-]. split; [reflexivity|]. split.
  - unfold labels. simpl. rewrite map_app, !map_map. reflexivity.
  - set (ps := join_pairs 0 (index a) (index b)).
    unfold rows, nrows. cbn [index]. rewrite length_gather, length_map.
    etransitivity; [|symmetry; apply (map_seq_nth _ ps (O, O))].
    apply map_ext_in. intros k Hk. apply in_seq in Hk.
    unfold row_at, cells. cbn [index columns].
    rewrite nth_gather by (rewrite length_map; lia).
    rewrite (map_nth fst ps (O, O) k : nth k (map fst ps) O = _).
    f_equal. rewrite map_app, !map_map. f_equal; apply map_ext; intros c; simpl.
    + rewrite nth_gather by (rewrite length_map; lia).
      now rewrite (map_nth fst ps (O, O) k : nth k (map fst ps) O = _).
    + rewrite nth_gather by (rewrite length_map; lia).
      now rewrite (map_nth snd ps (O, O) k : nth k (map snd ps) O = _).
Qed.

(** The rows of an inner join: every pairing of a left and a right row
    with the same label, side by side. *)
Lemma join_rows a b m :
  join a b = Ok m ->
  forall t r, In (t, r) (rows m) <->
    exists ra rb, In (t, ra) (rows a) /\ In (t, rb) (rows b) /\ r = (ra ++ rb)%list.
Proof.
  intros H t r. apply join_ok in H as [_ [_ R]]. rewrite R, in_map_iff. split.
  - intros [[i j] [E Hp]]. simpl in E. injection E as <- <-.
    apply in_join_pairs in Hp as [k [-> [H1 [H2 H3]]]]. simpl in *.
    exists (cells a k), (cells b j). repeat split.
    + apply in_rows. exists k. auto.
    + apply in_rows. exists j. auto.
  - intros [ra [rb [Ha [Hb ->]]]].
    apply in_rows in Ha as [i [Hi [-> ->]]]. apply in_rows in Hb as [j [Hj [E ->]]].
    exists (i, j). split; [reflexivity|].
    apply in_join_pairs. exists i. simpl. auto.
Qed.

Lemma join_total a b :
  overlap (labels a) (labels b) = false -> exists m, join a b = Ok m.
Proof. intros H. unfold join. rewrite H. eauto. Qed.

Lemma join_overlap a b :
  overlap (labels a) (labels b) = true ->
  join a b = Raise (ValueError "columns overlap but no suffix specified").
Proof. intros H. unfold join. now rewrite H. Qed.

Lemma overlap_In l r :
  overlap l r = true <-> exists x, In x l /\ In x r.
Proof.
  unfold overlap. rewrite existsb_exists. split.
  - intros [x [Hx H]]. apply existsb_exists in H as [y [Hy E]].
    apply String.eqb_eq in E. subst y. eauto.
  - intros [x [Hl Hr]]. exists x. split; [exact Hl|].
    apply existsb_exists. exists x. split; [exact Hr | apply String.eqb_refl].
Qed.

(** The merge succeeds exactly when no header comes twice. *)
Lemma merge_disjoint rest : forall df0,
  disjoint_from (labels df0) (map labels rest) = true <->
  exists m, merge df0 rest = Ok m.
Proof.
  unfold merge. induction rest as [|d rest IH]; intros df0; simpl.
  - split; eauto.
  - destruct (overlap (labels df0) (labels d)) eqn:O; simpl.
    + rewrite (join_overlap _ _ O). simpl. split; [discriminate | intros [m H]; discriminate].
    + destruct (join_total _ _ O) as [j Hj]. rewrite Hj. simpl.
      apply join_ok in Hj as [_ [L _]]. rewrite <- L. apply IH.
Qed.

Lemma merge_collision rest : forall df0,
  disjoint_from (labels df0) (map labels rest) = false ->
  merge df0 rest = Raise (ValueError "columns overlap but no suffix specified").
Proof.
  unfold merge. induction rest as [|d rest IH]; intros df0; simpl; [discriminate|].
  destruct (overlap (labels df0) (labels d)) eqn:O; simpl.
  - intros _. now rewrite (join_overlap _ _ O).
  - destruct (join_total _ _ O) as [j Hj]. rewrite Hj. simpl.
    apply join_ok in Hj as [_ [L _]]. rewrite <- L. apply IH.
Qed.

Lemma merge_rows rest : forall df0 m,
  merge df0 rest = Ok m ->
  labels m = List.concat (map labels (df0 :: rest)) /\
  forall t r, In (t, r) (rows m) <->
    exists rs, Forall2 (fun d rd => In (t, rd) (rows d)) (df0 :: rest) rs /\
               r = List.concat rs.
Proof.
  unfold merge. induction rest as [|d rest IH]; intros df0 m H; simpl in H.
  - injection H as <-. split; [simpl; now rewrite app_nil_r|].
    intros t r. split.
    + intros Hr. exists [r]. split; [repeat constructor; exact Hr|].
      simpl. now rewrite app_nil_r.
    + intros [rs [F ->]]. inversion F as [|? rd ? rs' Hd F']; subst.
      inversion F'; subst. simpl. now rewrite app_nil_r.
  - destruct (join df0 d) as [j|] eqn:J; [|discriminate]. simpl in H.
    destruct (IH _ _ H) as [L R]. split.
    + rewrite L. simpl. apply join_ok in J as [_ [Lj _]]. rewrite Lj.
      now rewrite <- app_assoc.
    + intros t r. rewrite R. split.
      * intros [rs [F ->]]. inversion F as [|? rj ? rs' Hj F']; subst.
        apply (join_rows _ _ _ J) in Hj as [ra [rb [Ha [Hb ->]]]].
        exists (ra :: rb :: rs'). split; [repeat constructor; assumption|].
        simpl. now rewrite <- app_assoc.
      * intros [rs [F ->]]. inversion F as [|? ra ? rs1 Ha F1]; subst.
        inversion F1 as [|? rb ? rs2 Hb F2]; subst.
        exists ((ra ++ rb)%list :: rs2). split.
        -- constructor; [|exact F2]. apply (join_rows _ _ _ J). eauto.
        -- simpl. now rewrite <- app_assoc.
Qed.

Lemma merge_index rest df0 m :
  merge df0 rest = Ok m ->
  forall t, In t (index m) <-> forall d, In d (df0 :: rest) -> In t (index d).
Proof.
  intros H t. destruct (merge_rows _ _ _ H) as [_ R].
  rewrite in_index_rows. split.
  - intros [r Hr]. apply R in Hr as [rs [F _]].
    clear -F. induction F as [|d rd ds rs Hd F IH]; intros d' Hin; [destruct Hin|].
    destruct Hin as [<- | Hin]; [|now apply IH].
    apply in_index_rows. eauto.
  - intros Hall.
    assert (exists rs, Forall2 (fun d rd => In (t, rd) (rows d)) (df0 :: rest) rs) as [rs F].
    { clear -Hall. induction (df0 :: rest) as [|d ds IH].
      - exists []. constructor.
      - destruct IH as [rs F]; [intros d' Hd'; apply Hall; now right|].
        destruct (proj1 (in_index_rows d t)) as [rd Hrd]; [apply Hall; now left|].
        exists (rd :: rs). now constructor. }
    exists (List.concat rs). apply R. eauto.
Qed.

(** *** Sorting *)

Lemma insert_sorted_perm idx p l : Permutation (insert_sorted idx p l) (p :: l).
Proof.
  induction l as [|q l IH]; simpl; [reflexivity|].
  destruct (label_leb _ _); [|reflexivity].
  rewrite IH. apply perm_swap.
Qed.

Lemma sorted_positions_perm idx :
  Permutation (sorted_positions idx) (seq 0 (List.length idx)).
Proof.
  unfold sorted_positions.
  assert (forall l acc, Permutation (fold_left (fun acc p => insert_sorted idx p acc) l acc)
                                    (acc ++ l)) as H.
  { induction l as [|p l IH]; intros acc; simpl.
    - now rewrite app_nil_r.
    - rewrite IH, insert_sorted_perm. apply Permutation_middle. }
  apply (H _ []).
Qed.

Lemma rows_gather ps df :
  rows (mkDF (gather ps (index df)) (map (map_values (gather ps)) (columns df)))
  = map (row_at df) ps.
Proof.
  unfold rows, nrows. cbn [index]. rewrite length_gather.
  etransitivity; [|symmetry; apply (map_seq_nth _ ps O)].
  apply map_ext_in. intros k Hk. apply in_seq in Hk.
  unfold row_at. cbn [index columns]. rewrite nth_gather by lia.
  f_equal. rewrite map_map. apply map_ext. intros c. simpl.
  now rewrite nth_gather by lia.
Qed.

(** Sorting reorders the rows and nothing else. *)
Lemma sort_index_perm df :
  Permutation (rows (sort_index df)) (rows df) /\ labels (sort_index df) = labels df.
Proof.
  unfold sort_index. split.
  - rewrite rows_gather. unfold rows. apply Permutation_map, sorted_positions_perm.
  - unfold labels. simpl. now rewrite map_map.
Qed.

Lemma sort_index_keys df t : In t (index (sort_index df)) <-> In t (index df).
Proof.
  rewrite !in_index_rows. destruct (sort_index_perm df) as [P _].
  split; intros [r H]; exists r.
  - now apply (Permutation_in _ P).
  - now apply (Permutation_in _ (Permutation_sym P)).
Qed.

End JoinFacts.

(** C2.  Whenever the driver's merge of a first table with the tables
    after it gives a table, the row labels of that table are exactly the
    labels present in every input; its headers are those of the inputs,
    one table after the other; its rows are the rows of the inputs with
    the same label set side by side; and sorting changes none of this.
    The merge gives a table whenever no header comes twice.  For table A
    at the hours 1, 2, 3 and table B at the hours 2, 3, 4 the merged
    labels are the hours 2 and 3. *)
Theorem merge_is_intersection :
  (forall df0 rest m,
      merge df0 rest = Ok m ->
      (forall t, In t (index m) <-> forall d, In d (df0 :: rest) -> In t (index d)) /\
      labels m = List.concat (map labels (df0 :: rest)) /\
      (forall t r, In (t, r) (rows m) <->
         exists rs, Forall2 (fun d rd => In (t, rd) (rows d)) (df0 :: rest) rs /\
                    r = List.concat rs) /\
      (forall t, In t (index (sort_index m)) <-> In t (index m)) /\
      labels (sort_index m) = labels m) /\
  (forall df0 rest,
      disjoint_from (labels df0) (map labels rest) = true ->
      exists m, merge df0 rest = Ok m) /\
  merge example_A [example_B]
  = Ok (mkDF [hour 2; hour 3]
             [ mkSeries "Total" DFloat64 [num 20; num 30];
               mkSeries "Grid_Load" DFloat64 [num 2; num 3] ]).
Proof.
  split; [|split].
  - intros df0 rest m H. destruct (JoinFacts.merge_rows _ _ _ H) as [L R].
    split; [exact (JoinFacts.merge_index _ _ _ H)|].
    split; [exact L|]. split; [exact R|].
    split; [intros t; apply JoinFacts.sort_index_keys|].
    apply JoinFacts.sort_index_perm.
  - intros df0 rest. apply JoinFacts.merge_disjoint.
  - vm_compute. reflexivity.
Qed.

Lemma merge_is_intersection_witness :
  merge example_A [example_B]
  = Ok (mkDF [hour 2; hour 3]
             [ mkSeries "Total" DFloat64 [num 20; num 30];
               mkSeries "Grid_Load" DFloat64 [num 2; num 3] ]) /\
  (forall t, In t [hour 2; hour 3] <->
             forall d, In d [example_A; example_B] -> In t (index d)).
Proof.
  assert (merge example_A [example_B]
          = Ok (mkDF [hour 2; hour 3]
                  [ mkSeries "Total" DFloat64 [num 20; num 30];
                    mkSeries "Grid_Load" DFloat64 [num 2; num 3] ])) as E
    by (vm_compute; reflexivity).
  split; [exact E|].
  exact (proj1 (proj1 merge_is_intersection _ _ _ E)).
Defined.

(** C4, as amended.  When two tables share a header the join raises
    [ValueError] ("columns overlap but no suffix specified"): the merge
    of a list in which some header comes twice ends with that exception,
    and so does the pipeline, after announcing the merge and before any
    file is written. *)
Theorem column_collision_raises :
  (forall a b x, In x (labels a) -> In x (labels b) ->
     join a b = Raise (ValueError "columns overlap but no suffix specified")) /\
  (forall df0 rest,
     disjoint_from (labels df0) (map labels rest) = false ->
     merge df0 rest = Raise (ValueError "columns overlap but no suffix specified")) /\
  (forall read_csv to_datetime perform t df0 rest,
     collect read_csv to_datetime = (t, Ok (df0 :: rest)) ->
     disjoint_from (labels df0) (map labels rest) = false ->
     run_pipeline read_csv to_datetime perform
     = ((t ++ [Print "Merging datasets..."])%list,
        Raise (ValueError "columns overlap but no suffix specified"))).
Proof.
  split; [|split].
  - intros a b x Ha Hb. apply JoinFacts.join_overlap, JoinFacts.overlap_In. eauto.
  - intros df0 rest. apply JoinFacts.merge_collision.
  - intros read_csv td perform t df0 rest C D. unfold run_pipeline. rewrite C.
    cbn [io_bind print emit lift]. rewrite (JoinFacts.merge_collision _ _ D).
    reflexivity.
Qed.

Lemma column_collision_raises_witness :
  In "Total" (labels example_A) /\ In "Total" (labels example_B_total) /\
  join example_A example_B_total
  = Raise (ValueError "columns overlap but no suffix specified").
Proof.
  assert (In "Total" (labels example_A)) as Ha by (simpl; auto).
  assert (In "Total" (labels example_B_total)) as Hb by (simpl; auto).
  split; [exact Ha|]. split; [exact Hb|].
  exact (proj1 column_collision_raises _ _ _ Ha Hb).
Defined.

(** C4, as stated, fails: two tables with the header [Total] do not
    merge into a table at all. *)
Lemma shared_header_does_not_merge :
  merge example_A [example_B_total]
  = Raise (ValueError "columns overlap but no suffix specified") /\
  ~ exists m, merge example_A [example_B_total] = Ok m.
Proof.
  assert (merge example_A [example_B_total]
          = Raise (ValueError "columns overlap but no suffix specified")) as E
    by (vm_compute; reflexivity).
  split; [exact E|]. intros [m H]. rewrite E in H. discriminate.
Qed.

(* ================================================================= *)
(** ** The price column *)

Module PriceFacts.
Import FrameFacts.

Lemma find_first (p : string -> bool) l1 col l2 :
  (forall x, In x l1 -> p x = false) -> p col = true ->
  find p (l1 ++ col :: l2) = Some col.
Proof.
  intros H1 Hc. induction l1 as [|x l1 IH]; simpl.
  - now rewrite Hc.
  - rewrite (H1 x) by now left. apply IH. intros y Hy. apply H1. now right.
Qed.

Lemma find_none (p : string -> bool) l :
  (forall x, In x l -> p x = false) -> find p l = None.
Proof.
  intros H. destruct (find p l) as [x|] eqn:E; [|reflexivity].
  apply find_some in E as [Hx Px]. rewrite (H x Hx) in Px. discriminate.
Qed.

Lemma rename_price_frame df :
  index (rename_price df) = index df /\
  map values (columns (rename_price df)) = map values (columns df) /\
  map dtype_of (columns (rename_price df)) = map dtype_of (columns df).
Proof.
  unfold rename_price. destruct (find is_price_label (labels df)) as [col|].
  - split; [reflexivity|].
    split; [apply values_rename_column | apply dtypes_rename_column].
  - destruct (columns df) as [|c [|c' l]] eqn:E; rewrite ?E; auto.
Qed.

Lemma labels_rename_price df : labels (rename_price df) = price_labels (labels df).
Proof.
  unfold rename_price, price_labels.
  destruct (find is_price_label (labels df)) as [col|].
  - apply labels_rename_column.
  - destruct df as [idx cols]. unfold labels. simpl.
    destruct cols as [|c [|c' l]]; reflexivity.
Qed.

End PriceFacts.

(** C8, as amended.  The driver looks at the headers of the normalized
    price table, in column order and with the case of the letters as it
    is: the first header that contains "Deutschland" or the euro sign
    becomes [Day_Ahead_Price] (with it any later column of the very same
    name), and the other headers stay.  When no header matches, a table
    of exactly one column has that column renamed, and any other table is
    left as it is.  A table of one column always ends as
    [Day_Ahead_Price].  Only headers change. *)
Theorem price_column_rename :
  (forall df l1 col l2,
      labels df = (l1 ++ col :: l2)%list ->
      (forall x, In x l1 -> is_price_label x = false) ->
      is_price_label col = true ->
      labels (rename_price df)
      = (l1 ++ "Day_Ahead_Price"
            :: map (fun l => if String.eqb l col then "Day_Ahead_Price" else l) l2)%list) /\
  (forall df c, columns df = [c] -> labels (rename_price df) = ["Day_Ahead_Price"]) /\
  (forall df,
      (forall x, In x (labels df) -> is_price_label x = false) ->
      List.length (columns df) <> 1%nat ->
      rename_price df = df) /\
  (forall df,
      index (rename_price df) = index df /\
      map values (columns (rename_price df)) = map values (columns df)) /\
  clean_name "Deutschland/Luxemburg [€/MWh] Calculated resolutions"
  = "Deutschland/Luxemburg" /\
  is_price_label "Deutschland/Luxemburg" = true /\
  is_price_label "deutschland/luxemburg" = false.
Proof.
  split; [|split; [|split; [|split]]].
  - intros df l1 col l2 L H1 Hc.
    rewrite PriceFacts.labels_rename_price. unfold price_labels. rewrite L.
    rewrite (PriceFacts.find_first _ _ _ _ H1 Hc), map_app. cbn [map].
    rewrite String.eqb_refl. f_equal.
    rewrite <- (map_id l1) at 2. apply map_ext_in. intros x Hx.
    destruct (String.eqb_spec x col) as [->|]; [|reflexivity].
    rewrite (H1 _ Hx) in Hc. discriminate.
  - intros df c E. rewrite PriceFacts.labels_rename_price. unfold price_labels, labels.
    rewrite E. cbn [map find]. destruct (is_price_label (name c)); [|reflexivity].
    cbn [map]. now rewrite String.eqb_refl.
  - intros df H N. unfold rename_price. rewrite (PriceFacts.find_none _ _ H).
    destruct (columns df) as [|c [|c' l]]; try reflexivity. now elim N.
  - intros df. destruct (PriceFacts.rename_price_frame df) as [I [V _]]. auto.
  - repeat split; now vm_compute.
Qed.

Lemma price_column_rename_witness :
  labels example_prices_de
  = (["Anrainer_DE/LU"] ++ "Deutschland/Luxemburg" :: ["Deutschland/Austria"])%list /\
  labels (rename_price example_prices_de)
  = ["Anrainer_DE/LU"; "Day_Ahead_Price"; "Deutschland/Austria"].
Proof.
  split; [reflexivity|].
  apply (proj1 price_column_rename example_prices_de
               ["Anrainer_DE/LU"] "Deutschland/Luxemburg" ["Deutschland/Austria"]).
  - reflexivity.
  - intros x [<- | []]. now vm_compute.
  - now vm_compute.
Defined.

(** C8, as stated, fails: the raw header [Price [€/MWh]] contains the
    euro sign, the table has a second column, and after the driver's
    renaming no column is called [Day_Ahead_Price]. *)
Lemma euro_in_unit_is_not_renamed :
  In "Price [€/MWh]" (labels example_prices) /\
  Str.contains "€" "Price [€/MWh]" = true /\
  exists df, normalize no_datetime example_prices = Ok df /\
             labels (rename_price df) = ["Price"; "Volume"] /\
             ~ In "Day_Ahead_Price" (labels (rename_price df)).
Proof.
  split; [simpl; auto|]. split; [now vm_compute|].
  eexists. split; [vm_compute; reflexivity|].
  split; [now vm_compute|].
  vm_compute. intros [H | [H | []]]; discriminate.
Qed.

(* ================================================================= *)
(** ** The pipeline driver *)

Module DriverFacts.

Lemma clean_smard_df_error read_csv to_datetime path e :
  read_csv path = ReadError e ->
  clean_smard_df read_csv to_datetime path
  = ([Print ("Processing " ++ path ++ "...");
      Print ("Error reading " ++ path ++ ": " ++ e)], Ok None).
Proof. intros H. unfold clean_smard_df. now rewrite H. Qed.

Lemma clean_smard_df_ok read_csv to_datetime path df :
  read_csv path = ReadOk df ->
  clean_smard_df read_csv to_datetime path
  = ([Print ("Processing " ++ path ++ "...")],
     match normalize to_datetime df with
     | Ok df' => Ok (Some df')
     | Raise e => Raise e
     end).
Proof.
  intros H. unfold clean_smard_df. rewrite H. unfold lift, print, emit. simpl.
  now destruct (normalize to_datetime df).
Qed.

Lemma collect_tables read_csv to_datetime tg g tc c tp p :
  clean_smard_df read_csv to_datetime src_generation = (tg, Ok g) ->
  clean_smard_df read_csv to_datetime src_consumption = (tc, Ok c) ->
  clean_smard_df read_csv to_datetime src_prices = (tp, Ok p) ->
  collect read_csv to_datetime
  = ((tg ++ tc ++ tp)%list,
     Ok (tables g ++ tables c ++ tables (option_map rename_price p))%list).
Proof.
  intros G C P. unfold collect. rewrite G, C, P. cbn [io_bind ret].
  rewrite !app_nil_r. destruct g, c, p; reflexivity.
Qed.

(** The merge written is the merge of the tables, re-ordered. *)
Lemma merges_sort_index df0 rest m :
  merge df0 rest = Ok m -> merges (df0 :: rest) (sort_index m).
Proof.
  intros H. destruct (JoinFacts.merge_rows _ _ _ H) as [L R].
  destruct (JoinFacts.sort_index_perm m) as [P Ls]. split; [congruence|].
  intros t r. rewrite <- R. split.
  - apply (Permutation_in _ P).
  - apply (Permutation_in _ (Permutation_sym P)).
Qed.

Lemma io_bind_ok {A B} t (a : A) (k : A -> io B) :
  io_bind (t, Ok a) k = ((t ++ fst (k a))%list, snd (k a)).
Proof. unfold io_bind. now destruct (k a). Qed.

Section Closing.

Variable read_csv : string -> read_result.
Variable to_datetime : list value -> result (list (option Timestamp)).
Variable perform : event -> result unit.

Lemma run_pipeline_raise t e :
  collect read_csv to_datetime = (t, Raise e) ->
  run_pipeline read_csv to_datetime perform = (t, Raise e).
Proof. intros C. unfold run_pipeline. now rewrite C. Qed.

Lemma run_pipeline_empty t :
  collect read_csv to_datetime = (t, Ok []) ->
  run_pipeline read_csv to_datetime perform
  = ((t ++ [Print "No data processed."])%list, Ok tt).
Proof. intros C. unfold run_pipeline. now rewrite C. Qed.

Lemma run_pipeline_unmerged t df0 rest e :
  collect read_csv to_datetime = (t, Ok (df0 :: rest)) ->
  merge df0 rest = Raise e ->
  run_pipeline read_csv to_datetime perform
  = ((t ++ [Print "Merging datasets..."])%list, Raise e).
Proof.
  intros C M. unfold run_pipeline. rewrite C.
  cbn [io_bind print emit lift]. now rewrite M.
Qed.

(** Once the tables are merged the write is attempted, first of the
    closing effects and the only write; when it fails it is the last
    effect, and the run ends with its exception. *)
Lemma run_pipeline_merged t df0 rest m :
  collect read_csv to_datetime = (t, Ok (df0 :: rest)) ->
  merge df0 rest = Ok m ->
  exists tail,
    fst (run_pipeline read_csv to_datetime perform)
    = (t ++ Print "Merging datasets..."
         :: WriteCsv output_path (sort_index m) :: tail)%list /\
    filter is_write tail = [] /\
    (forall e, perform (WriteCsv output_path (sort_index m)) = Raise e ->
               tail = [] /\
               snd (run_pipeline read_csv to_datetime perform) = Raise e) /\
    ((forall e, perform e = Ok tt) ->
     run_pipeline read_csv to_datetime perform
     = ((t ++ closing_events (sort_index m))%list, Ok tt)).
Proof.
  intros C M. unfold run_pipeline. rewrite C, io_bind_ok.
  unfold print, emit, lift, attempt. rewrite io_bind_ok, M, io_bind_ok.
  cbn [fst snd app].
  destruct (perform (WriteCsv output_path (sort_index m))) as [[]|e0] eqn:P0.
  2: { exists []. cbn [io_bind fst snd app].
       split; [reflexivity|]. split; [reflexivity|]. split.
       - intros e [= <-]. split; reflexivity.
       - intros A. rewrite A in P0. discriminate. }
  rewrite io_bind_ok.
  destruct (perform (Print ("Saved master dataset to " ++ output_path)))
    as [[]|e1] eqn:P1; [rewrite io_bind_ok|].
  1: destruct (perform (Print "Master DataFrame Info:")) as [[]|e2] eqn:P2;
     [rewrite io_bind_ok|].
  1: destruct (perform (PrintInfo (sort_index m))) as [[]|e3] eqn:P3;
     [rewrite io_bind_ok|].
  1: destruct (perform (Print (String "010" "Column names:"))) as [[]|e4] eqn:P4;
     [rewrite io_bind_ok|].
  1: destruct (perform (PrintList (labels (sort_index m)))) as [[]|e5] eqn:P5.
  all: cbn [io_bind fst snd app]; eexists; (split; [reflexivity|]);
    (split; [reflexivity|]); (split; [intros e; discriminate|]);
    intros A; try reflexivity; rewrite A in *; discriminate.
Qed.

End Closing.

End DriverFacts.

(** C9.  A source whose read fails is announced, reported with an error
    line that names the file, and given as absent, without an exception.
    Whichever of the three sources fails, the driver goes on: the console
    holds the two lines of the failing source among the lines of the
    other two, and the tables collected are the tables of the other two,
    the failing source adding none.  When all three fail the driver
    reports that no data was processed and returns.  The tables collected
    do reach the merge: once merged, their headers and their rows at the
    shared instants are what the driver gives to the write of the master
    file. *)
Theorem load_failure_skips_the_source :
  (forall read_csv to_datetime path e,
      read_csv path = ReadError e ->
      clean_smard_df read_csv to_datetime path
      = ([Print ("Processing " ++ path ++ "...");
          Print ("Error reading " ++ path ++ ": " ++ e)], Ok None)) /\
  (forall read_csv to_datetime e tc c tp p,
      read_csv src_generation = ReadError e ->
      clean_smard_df read_csv to_datetime src_consumption = (tc, Ok c) ->
      clean_smard_df read_csv to_datetime src_prices = (tp, Ok p) ->
      collect read_csv to_datetime
      = ((Print ("Processing " ++ src_generation ++ "...")
          :: Print ("Error reading " ++ src_generation ++ ": " ++ e)
          :: tc ++ tp)%list,
         Ok (tables c ++ tables (option_map rename_price p))%list)) /\
  (forall read_csv to_datetime e tg g tp p,
      read_csv src_consumption = ReadError e ->
      clean_smard_df read_csv to_datetime src_generation = (tg, Ok g) ->
      clean_smard_df read_csv to_datetime src_prices = (tp, Ok p) ->
      collect read_csv to_datetime
      = ((tg ++ Print ("Processing " ++ src_consumption ++ "...")
             :: Print ("Error reading " ++ src_consumption ++ ": " ++ e)
             :: tp)%list,
         Ok (tables g ++ tables (option_map rename_price p))%list)) /\
  (forall read_csv to_datetime e tg g tc c,
      read_csv src_prices = ReadError e ->
      clean_smard_df read_csv to_datetime src_generation = (tg, Ok g) ->
      clean_smard_df read_csv to_datetime src_consumption = (tc, Ok c) ->
      collect read_csv to_datetime
      = ((tg ++ tc ++
          [Print ("Processing " ++ src_prices ++ "...");
           Print ("Error reading " ++ src_prices ++ ": " ++ e)])%list,
         Ok (tables g ++ tables c)%list)) /\
  (forall read_csv to_datetime perform e1 e2 e3,
      read_csv src_generation = ReadError e1 ->
      read_csv src_consumption = ReadError e2 ->
      read_csv src_prices = ReadError e3 ->
      run_pipeline read_csv to_datetime perform
      = ([Print ("Processing " ++ src_generation ++ "...");
          Print ("Error reading " ++ src_generation ++ ": " ++ e1);
          Print ("Processing " ++ src_consumption ++ "...");
          Print ("Error reading " ++ src_consumption ++ ": " ++ e2);
          Print ("Processing " ++ src_prices ++ "...");
          Print ("Error reading " ++ src_prices ++ ": " ++ e3);
          Print "No data processed."], Ok tt)) /\
  (forall read_csv to_datetime perform t df0 rest m,
      collect read_csv to_datetime = (t, Ok (df0 :: rest)) ->
      merge df0 rest = Ok m ->
      exists w tail,
        fst (run_pipeline read_csv to_datetime perform)
        = (t ++ Print "Merging datasets..."
             :: WriteCsv output_path w :: tail)%list /\
        merges (df0 :: rest) w).
Proof.
  split; [exact DriverFacts.clean_smard_df_error|].
  split; [|split; [|split; [|split]]].
  - intros read_csv td e tc c tp p H C P.
    rewrite (DriverFacts.collect_tables _ _ _ _ _ _ _ _
               (DriverFacts.clean_smard_df_error _ td _ _ H) C P).
    reflexivity.
  - intros read_csv td e tg g tp p H G P.
    rewrite (DriverFacts.collect_tables _ _ _ _ _ _ _ _
               G (DriverFacts.clean_smard_df_error _ td _ _ H) P).
    reflexivity.
  - intros read_csv td e tg g tc c H G C.
    rewrite (DriverFacts.collect_tables _ _ _ _ _ _ _ _
               G C (DriverFacts.clean_smard_df_error _ td _ _ H)).
    cbn [tables option_map]. now rewrite !app_nil_r.
  - intros read_csv td perform e1 e2 e3 H1 H2 H3.
    apply (DriverFacts.run_pipeline_empty read_csv td perform
             [Print ("Processing " ++ src_generation ++ "...");
              Print ("Error reading " ++ src_generation ++ ": " ++ e1);
              Print ("Processing " ++ src_consumption ++ "...");
              Print ("Error reading " ++ src_consumption ++ ": " ++ e2);
              Print ("Processing " ++ src_prices ++ "...");
              Print ("Error reading " ++ src_prices ++ ": " ++ e3)]).
    apply (DriverFacts.collect_tables _ _ _ _ _ _ _ _
             (DriverFacts.clean_smard_df_error _ td _ _ H1)
             (DriverFacts.clean_smard_df_error _ td _ _ H2)
             (DriverFacts.clean_smard_df_error _ td _ _ H3)).
  - intros read_csv td perform t df0 rest m C M.
    destruct (DriverFacts.run_pipeline_merged read_csv td perform _ _ _ _ C M)
      as [tail [E _]].
    exists (sort_index m), tail. split; [exact E|].
    now apply DriverFacts.merges_sort_index.
Qed.

(** With the generation export alone on disk the consumption and price
    reads fail: the table collected is the generation table, and it is
    the table given to the write. *)
Lemma load_failure_skips_the_source_witness :
  collect only_generation no_datetime
  = ([ Print "Processing ../data/generation.csv...";
       Print "Processing ../data/consumption.csv...";
       Print "Error reading ../data/consumption.csv: No such file or directory";
       Print "Processing ../data/prices.csv...";
       Print "Error reading ../data/prices.csv: No such file or directory" ],
     Ok [example_generation_normalized]) /\
  exists w tail,
    fst (run_pipeline only_generation no_datetime disk_full)
    = ([ Print "Processing ../data/generation.csv...";
         Print "Processing ../data/consumption.csv...";
         Print "Error reading ../data/consumption.csv: No such file or directory";
         Print "Processing ../data/prices.csv...";
         Print "Error reading ../data/prices.csv: No such file or directory" ]
       ++ Print "Merging datasets..." :: WriteCsv output_path w :: tail)%list /\
    merges [example_generation_normalized] w.
Proof.
  assert (collect only_generation no_datetime
          = ([ Print "Processing ../data/generation.csv...";
               Print "Processing ../data/consumption.csv...";
               Print "Error reading ../data/consumption.csv: No such file or directory";
               Print "Processing ../data/prices.csv...";
               Print "Error reading ../data/prices.csv: No such file or directory" ],
             Ok [example_generation_normalized])) as C.
  { apply (proj1 (proj2 (proj2 (proj2 load_failure_skips_the_source)))
             only_generation no_datetime "No such file or directory"
             [Print "Processing ../data/generation.csv..."]
             (Some example_generation_normalized)
             [Print "Processing ../data/consumption.csv...";
              Print "Error reading ../data/consumption.csv: No such file or directory"]
             None);
      vm_compute; reflexivity. }
  split; [exact C|].
  apply (proj2 (proj2 (proj2 (proj2 (proj2 load_failure_skips_the_source))))
           only_generation no_datetime disk_full _ _ _
           example_generation_normalized C).
  vm_compute. reflexivity.
Defined.

(** ** When the pipeline completes *)

Module TotalFacts.
Import FrameFacts NormalizeFacts.

Lemma for_each_total {A S} (P : S -> Prop) (body : A -> S -> result S) l :
  (forall x s, In x l -> P s -> exists s', body x s = Ok s' /\ P s') ->
  forall s, P s -> exists s', for_each body l s = Ok s' /\ P s'.
Proof.
  induction l as [|x l IH]; intros Hb s Hs; simpl; [eauto|].
  destruct (Hb x s (or_introl eq_refl) Hs) as [s1 [E P1]]. rewrite E. simpl.
  apply IH; [|exact P1]. intros y t Hy. apply Hb. now right.
Qed.

Lemma apply_total l :
  Forall representable l ->
  exists vals, apply parse_german_number l = Ok vals /\
               List.length vals = List.length l /\ Forall representable vals.
Proof.
  induction 1 as [|x l Hx _ [vals [E [L R]]]]; simpl.
  - exists []. auto.
  - rewrite (parse_german_number_representable x Hx). simpl. rewrite E. simpl.
    exists (VFloat (german_reading x) :: vals). repeat split.
    + simpl. now rewrite L.
    + constructor; [exact I | exact R].
Qed.

Lemma count_label_nodup x l : NoDup l -> (Str.count_label x l <= 1)%nat.
Proof.
  unfold Str.count_label. induction 1 as [|y l Hy _ IH]; simpl; [lia|].
  destruct (String.eqb_spec x y) as [->|]; [|exact IH]. simpl.
  assert (filter (String.eqb y) l = []) as ->; [|simpl; lia].
  destruct (filter (String.eqb y) l) as [|z r] eqn:E; [reflexivity|].
  assert (In z (filter (String.eqb y) l)) as Hz by (rewrite E; now left).
  apply filter_In in Hz as [Hz Ez]. apply String.eqb_eq in Ez. now subst z.
Qed.

Lemma convert_column_total col s :
  In col (labels s) -> NoDup (labels s) -> sound s ->
  exists s', convert_column col s = Ok s' /\ labels s' = labels s /\ sound s'.
Proof.
  intros Hin Hnd Hs. unfold convert_column.
  pose proof (count_label_nodup col _ Hnd) as Hc.
  destruct (Nat.ltb_spec 1 (Str.count_label col (labels s))) as [Hlt|_]; [lia|].
  apply has_column_In in Hin.
  destruct (proj1 (has_column_get col s) Hin) as [c Gc]. rewrite Gc.
  destruct (dtype_is_object (dtype_of c)); [|eauto].
  pose proof (get_column_In _ _ _ Gc) as Hcin.
  assert (List.length (values c) = nrows s /\ Forall representable (values c)) as [Lc Rc].
  { unfold sound in Hs. rewrite Forall_forall in Hs. apply Hs. now apply in_map. }
  destruct (apply_total _ Rc) as [vals [E [L R]]]. rewrite E. simpl.
  unfold assign. rewrite L, Lc, Nat.eqb_refl, Hin. simpl.
  eexists. split; [reflexivity|]. split.
  - unfold labels. simpl. now apply map_name_replaced.
  - unfold sound, nrows in *. simpl. rewrite map_map.
    rewrite Forall_forall in Hs. apply Forall_forall. intros vs Hvs.
    apply in_map_iff in Hvs as [c' [<- Hc']].
    destruct (String.eqb col (name c')); simpl.
    + split; [congruence | exact R].
    + apply Hs. now apply in_map.
Qed.

Lemma convert_all_total d :
  NoDup (labels d) -> sound d ->
  exists d', convert_all d = Ok d' /\ labels d' = labels d.
Proof.
  intros Hnd Hs. unfold convert_all.
  destruct (for_each_total (fun s => labels s = labels d /\ sound s)
              convert_column (labels d)) with (s := d) as [d' [E [L _]]]; eauto.
  intros x s Hx [Ls Ss].
  destruct (convert_column_total x s) as [s' [E [L S']]];
    try rewrite Ls; auto.
  exists s'. repeat split; auto. congruence.
Qed.

Lemma sound_rename_all d : sound d -> sound (rename_all d).
Proof.
  unfold sound, nrows. destruct (rename_all_frame d) as [I [V _]].
  now rewrite I, V.
Qed.

Lemma sound_drop_date d : sound d -> sound (drop_date_columns d).
Proof.
  unfold sound, nrows. rewrite drop_date_columns_columns.
  change (index (drop_date_columns d)) with (index d).
  rewrite !Forall_forall. intros H vs Hvs.
  apply in_map_iff in Hvs as [c [<- Hc]]. apply filter_In in Hc as [Hc _].
  apply H. now apply in_map.
Qed.

Lemma labels_map_values f cols : map name (map (map_values f) cols) = map name cols.
Proof. rewrite map_map. reflexivity. Qed.

Lemma filter_map_values (p : string -> bool) f cols :
  filter (fun c => p (name c)) (map (map_values f) cols)
  = map (map_values f) (filter (fun c => p (name c)) cols).
Proof.
  induction cols as [|c cols IH]; [reflexivity|]. simpl.
  destruct (p (name c)); simpl; now rewrite IH.
Qed.

Section WithOracle.

Variable to_datetime : list value -> result (list (option Timestamp)).

Lemma with_timestamp_instants df ts :
  instants_of to_datetime df ts ->
  with_timestamp to_datetime df = assign "timestamp" DDatetime ts df.
Proof.
  unfold instants_of, with_timestamp.
  destruct (get_column "Start date" df) as [c|].
  - now intros ->.
  - intros [c [l [-> [-> ->]]]]. reflexivity.
Qed.

(** A frame with an instant for every row, one value per row in every
    column, no overflowing int and distinct canonical headers
    normalizes. *)
Lemma normalize_accepts df :
  acceptable to_datetime df -> NoDup (canonical_labels df) ->
  exists df', normalize to_datetime df = Ok df' /\
              labels df' = canonical_labels df.
Proof.
  intros [[ts [Hts Lts]] [Hwf Hsafe]] Hnd.
  rewrite Forall_forall in Hwf, Hsafe.
  destruct (assign_total "timestamp" DDatetime ts df Lts) as [df1 A].
  unfold normalize. rewrite (with_timestamp_instants df ts Hts), A. simpl.
  apply assign_ok in A as [_ [I1 [G1 [F1 _]]]].
  unfold dropna. rewrite G1. simpl.
  set (keep := map (fun v => negb (isna v)) ts).
  unfold set_index, get_column. cbn [columns index].
  rewrite find_map_values. fold (get_column "timestamp" df1). rewrite G1.
  cbn [option_map bind map_values values].
  rewrite (filter_map_values (fun l => negb (String.eqb "timestamp" l))), F1.
  set (df3 := mkDF _ _).
  assert (sound df3) as S3.
  { unfold sound, df3, nrows. simpl. rewrite map_map. apply Forall_forall.
    intros vs Hvs. apply in_map_iff in Hvs as [c' [<- Hc']].
    apply filter_In in Hc' as [Hc' _]. simpl. split.
    - apply select_length. rewrite Lts. now apply Hwf.
    - apply select_Forall. now apply Hsafe. }
  assert (labels (rename_all (drop_date_columns df3)) = canonical_labels df) as L3.
  { rewrite rename_all_labels, drop_date_columns_labels. unfold canonical_labels.
    f_equal. unfold labels at 1, df3. simpl. rewrite labels_map_values.
    rewrite (labels_filter (fun l => negb (String.eqb "timestamp" l))).
    apply filter_not_date_timestamp. }
  destruct (convert_all_total (rename_all (drop_date_columns df3))) as [d' [E L]].
  - now rewrite L3.
  - now apply sound_rename_all, sound_drop_date.
  - exists d'. split; [exact E | congruence].
Qed.

Lemma usable_acceptable df : usable df -> acceptable to_datetime df.
Proof.
  intros [Hs [Hwf Hsafe]]. split; [|now split].
  destruct (proj1 (has_column_get _ _) Hs) as [c Gc].
  exists (map to_datetime_format (values c)). split.
  - unfold instants_of. now rewrite Gc.
  - rewrite length_map. rewrite Forall_forall in Hwf. apply Hwf.
    exact (get_column_In _ _ _ Gc).
Qed.

(** A usable frame whose canonical headers are distinct normalizes. *)
Lemma normalize_total df :
  usable df -> NoDup (canonical_labels df) ->
  exists df', normalize to_datetime df = Ok df' /\
              labels df' = canonical_labels df.
Proof. intros U. apply normalize_accepts. now apply usable_acceptable. Qed.

End WithOracle.




End TotalFacts.

(* ================================================================= *)
(** ** The column normalizer *)

(** C6.  The name given to a header is its canonical name: the text
    before the first bracket, trimmed, with spaces as underscores, unless
    the header contains "residual" (then [Residual_Load]) or, failing
    that, "grid load" or "grid_load" (then [Grid_Load]), whatever the
    case of its letters.  The headers of a normalized frame are the
    canonical names of the headers left after the timestamp handling, in
    their order. *)
Theorem header_canonicalization :
  (forall col, clean_name col = canonical_name col) /\
  (forall col, Str.contains "residual" (Str.lower col) = true ->
               clean_name col = "Residual_Load") /\
  (forall col, Str.contains "residual" (Str.lower col) = false ->
               Str.contains "grid load" (Str.lower col) = true \/
               Str.contains "grid_load" (Str.lower col) = true ->
               clean_name col = "Grid_Load") /\
  (forall col, Str.contains "residual" (Str.lower col) = false ->
               Str.contains "grid load" (Str.lower col) = false ->
               Str.contains "grid_load" (Str.lower col) = false ->
               clean_name col = generic_cleanup col) /\
  (forall to_datetime df df',
      normalize to_datetime df = Ok df' ->
      labels df' = map canonical_name
                       (filter (fun l => negb (is_date_label l)) (labels df))) /\
  clean_name "Total [MWh] Calculated resolutions" = "Total" /\
  clean_name "Residual load [MWh] Calculated resolutions" = "Residual_Load" /\
  clean_name "GRID LOAD incl. residual [MWh]" = "Residual_Load" /\
  clean_name "Grid load [MWh] Calculated resolutions" = "Grid_Load" /\
  clean_name " Wind offshore [MWh] Calculated resolutions" = "Wind_offshore".
Proof.
  split; [exact NameFacts.clean_name_canonical|].
  split; [|split; [|split; [|split]]].
  - intros col H. rewrite NameFacts.clean_name_canonical. unfold canonical_name.
    now rewrite H.
  - intros col R G. rewrite NameFacts.clean_name_canonical. unfold canonical_name.
    rewrite R. apply orb_true_iff in G. now rewrite G.
  - intros col R G1 G2. rewrite NameFacts.clean_name_canonical. unfold canonical_name.
    now rewrite R, G1, G2.
  - intros td df df' H.
    destruct (NormalizeFacts.normalize_ok td df df' H) as [ts [_ [_ [_ L]]]].
    rewrite L. apply map_ext. exact NameFacts.clean_name_canonical.
  - repeat split; now vm_compute.
Qed.

Lemma header_canonicalization_witness :
  normalize no_datetime example_generation
  = Ok example_generation_normalized /\
  ["Total"] = map canonical_name
                  (filter (fun l => negb (is_date_label l)) (labels example_generation)).
Proof.
  assert (normalize no_datetime example_generation
          = Ok example_generation_normalized) as E
    by (vm_compute; reflexivity).
  split; [exact E|].
  exact (proj1 (proj2 (proj2 (proj2 (proj2 header_canonicalization)))) _ _ _ E).
Defined.

(** C7, on the code.  The rows with an unreadable timestamp are dropped
    on one of the two paths only.  With a start-date column the call of
    line 58 has [errors='coerce'], the text "abc" becomes [NaT] and its
    row is dropped by line 70, as the comment of line 69 says.  With a
    [timestamp] column the call of line 62 has no [errors='coerce']: on
    the same rows, whenever [pd.to_datetime] raises at the column the
    loader ends with that exception, and gives no table at all. *)
Theorem unreadable_timestamp_raises :
  get_column "Start date" example_bad_stamp = None /\
  get_column "timestamp" example_bad_stamp
  = Some (mkSeries "timestamp" DObject [VStr "2021-01-01 00:00"; VStr "abc"]) /\
  iso_datetime [VStr "2021-01-01 00:00"]
  = Ok [Some (mkTimestamp 2021 1 1 0 0)] /\
  iso_datetime [VStr "2021-01-01 00:00"; VStr "abc"]
  = Raise (ValueError "Unknown datetime string format, unable to parse: abc") /\
  (forall path,
      clean_smard_df (fun _ => ReadOk example_bad_stamp) iso_datetime path
      = ([Print ("Processing " ++ path ++ "...")],
         Raise (ValueError "Unknown datetime string format, unable to parse: abc"))) /\
  (forall to_datetime path,
      clean_smard_df (fun _ => ReadOk example_bad_stamp) to_datetime path
      = ([Print ("Processing " ++ path ++ "...")],
         match to_datetime [VStr "2021-01-01 00:00"; VStr "abc"] with
         | Raise e => Raise e
         | Ok l =>
             match normalize (fun _ => Ok l) example_bad_stamp with
             | Ok df => Ok (Some df)
             | Raise e => Raise e
             end
         end)) /\
  to_datetime_format (VStr "abc") = VNaT /\
  (forall to_datetime path,
      clean_smard_df (fun _ => ReadOk example_bad_start) to_datetime path
      = ([Print ("Processing " ++ path ++ "...")],
         Ok (Some (mkDF [VTime (mkTimestamp 2021 1 1 0 0)]
                        [mkSeries "Total" DInt64 [VInt 1]])))).
Proof.
  split; [reflexivity|]. split; [reflexivity|].
  split; [now vm_compute|]. split; [now vm_compute|].
  split; [|split; [|split]].
  - intros path. unfold clean_smard_df.
    replace (normalize iso_datetime example_bad_stamp)
      with (@Raise DataFrame
              (ValueError "Unknown datetime string format, unable to parse: abc"))
      by (vm_compute; reflexivity).
    reflexivity.
  - intros td path. unfold clean_smard_df, normalize, with_timestamp.
    cbn [get_column example_bad_stamp columns find name String.eqb Ascii.eqb
         Bool.eqb values lift io_bind print emit ret bind app].
    destruct (td [VStr "2021-01-01 00:00"; VStr "abc"]) as [l|e]; [|reflexivity].
    cbn [bind]. 
    destruct (df <- assign "timestamp" DDatetime (map of_instant l) example_bad_stamp;;
              df0 <- dropna "timestamp" df;;
              df1 <- set_index "timestamp" df0;;
              convert_all (rename_all (drop_date_columns df1))); reflexivity.
  - now vm_compute.
  - intros td path. unfold clean_smard_df.
    replace (normalize td example_bad_start)
      with (Ok (mkDF [VTime (mkTimestamp 2021 1 1 0 0)]
                     [mkSeries "Total" DInt64 [VInt 1]])).
    + reflexivity.
    + unfold normalize, with_timestamp.
      change (get_column "Start date" example_bad_start)
        with (Some (mkSeries "Start date" DObject
                      [VStr "Jan 1, 2021 12:00 AM"; VStr "abc"])).
      cbv iota beta. vm_compute. reflexivity.
Qed.

(** A frame with neither a start-date nor a timestamp column does not
    normalize: [dropna] raises [KeyError]. *)
Lemma normalize_without_timestamp to_datetime df :
  get_column "Start date" df = None ->
  get_column "timestamp" df = None ->
  normalize to_datetime df = Raise (KeyError "timestamp").
Proof.
  intros S T. unfold normalize, with_timestamp. rewrite S, T. simpl.
  unfold dropna. now rewrite T.
Qed.

(** C3, on the code.  For a file that loads with the single column [A],
    [clean_smard_df] announces the file and ends with [KeyError]: no
    frame, empty or not, is returned. *)
Theorem clean_smard_df_undated_raises :
  forall to_datetime path,
    get_column "Start date" example_undated = None /\
    get_column "timestamp" example_undated = None /\
    clean_smard_df (fun _ => ReadOk example_undated) to_datetime path
    = ([Print ("Processing " ++ path ++ "...")], Raise (KeyError "timestamp")).
Proof.
  intros td path. split; [reflexivity|]. split; [reflexivity|].
  unfold clean_smard_df. rewrite normalize_without_timestamp by reflexivity.
  reflexivity.
Qed.

(* ================================================================= *)
(** * Further properties *)

(** ** Header names *)

(** X1.  The naming rule is idempotent: the canonical name of a
    canonical name is itself.  This is what makes the renaming loop safe
    when the name given to one column is the raw header of another. *)
Theorem clean_name_is_idempotent :
  forall col, clean_name (clean_name col) = clean_name col.
Proof. exact NameFacts.clean_name_idem. Qed.

Lemma generic_cleanup_clean col :
  Str.has_char " " (generic_cleanup col) = false /\
  Str.has_char "[" (generic_cleanup col) = false /\
  Str.stripped (generic_cleanup col).
Proof.
  destruct (NameFacts.generic_cleanup_sub_source col) as [t [_ [E [St Hb]]]].
  rewrite E. split; [apply StrFacts.map_underscore_no_space|].
  split; [|now apply StrFacts.map_underscore_stripped].
  apply StrFacts.has_char_map_chars; [apply StrFacts.underscore_bracket | exact Hb].
Qed.

(** X2.  A canonical name holds no space and no opening bracket, and
    has no white space at either end. *)
Theorem clean_name_has_no_space_or_bracket :
  forall col,
    Str.contains " " (clean_name col) = false /\
    Str.contains "[" (clean_name col) = false /\
    Str.strip (clean_name col) = clean_name col.
Proof.
  intros col. rewrite <- !StrFacts.has_char_contains.
  rewrite NameFacts.clean_name_canonical. unfold canonical_name.
  destruct (Str.contains "residual" (Str.lower col)); [repeat split; now vm_compute|].
  destruct (Str.contains "grid load" (Str.lower col) ||
            Str.contains "grid_load" (Str.lower col)); [repeat split; now vm_compute|].
  destruct (generic_cleanup_clean col) as [H1 [H2 H3]].
  repeat split; auto. now apply StrFacts.stripped_strip.
Qed.

(** ** The numeric conversion *)

Module ConvertFacts.
Import FrameFacts NormalizeFacts.

Lemma parse_german_number_ok v f :
  parse_german_number v = Ok f -> f = german_reading v /\ representable v.
Proof.
  intros H. assert (representable v) as R.
  { destruct v as [|g|n|s|t|]; simpl; auto.
    unfold parse_german_number, float_of_int in H. cbn [isna] in H.
    destruct (Float.is_infinite (Float.of_Z n)); [discriminate | reflexivity]. }
  split; [|exact R]. rewrite (parse_german_number_representable v R) in H.
  now injection H.
Qed.

Lemma apply_ok l vals :
  apply parse_german_number l = Ok vals ->
  vals = map (fun v => VFloat (german_reading v)) l /\ Forall representable l.
Proof.
  revert vals. induction l as [|x l IH]; intros vals H; simpl in H.
  - injection H as <-. auto.
  - destruct (parse_german_number x) as [f|] eqn:P; [|discriminate]. simpl in H.
    destruct (apply parse_german_number l) as [ys|] eqn:A; [|discriminate].
    simpl in H. injection H as <-.
    apply parse_german_number_ok in P as [-> R].
    destruct (IH _ eq_refl) as [-> F]. auto.
Qed.

(** A header borne by one column names that column. *)
Lemma unique_column x cols c0 :
  (Str.count_label x (map name cols) <= 1)%nat ->
  find (fun c => String.eqb x (name c)) cols = Some c0 ->
  forall c, In c cols -> name c = x -> c = c0.
Proof.
  unfold Str.count_label. induction cols as [|c1 cols IH]; intros Hc Hf c Hin Hn;
    [destruct Hin|].
  simpl in Hc, Hf. destruct (String.eqb x (name c1)) eqn:E.
  - injection Hf as <-. destruct Hin as [<-|Hin]; [reflexivity|].
    simpl in Hc. exfalso.
    assert (In (name c) (filter (String.eqb x) (map name cols))) as Hx.
    { apply filter_In. split; [now apply in_map|]. subst x. apply String.eqb_refl. }
    destruct (filter (String.eqb x) (map name cols)); [destruct Hx | simpl in Hc; lia].
  - destruct Hin as [<-|Hin]; [|now apply IH].
    subst x. now rewrite String.eqb_refl in E.
Qed.

Lemma convert_column_columns x s s' :
  convert_column x s = Ok s' ->
  (Str.count_label x (labels s) <= 1)%nat /\
  index s' = index s /\
  columns s' = map (fun c => if String.eqb x (name c) then converted c else c)
                   (columns s).
Proof.
  unfold convert_column.
  destruct (Nat.ltb_spec 1 (Str.count_label x (labels s))) as [|Hc]; [discriminate|].
  destruct (get_column x s) as [c0|] eqn:G; [|discriminate].
  intros H. split; [exact Hc|].
  assert (forall c, In c (columns s) -> String.eqb x (name c) = true -> c = c0) as U.
  { intros c Hin E. apply String.eqb_eq in E.
    now apply (unique_column x (columns s) c0 Hc G). }
  assert (String.eqb x (name c0) = true) as E0
    by (apply String.eqb_eq; symmetry; now apply (get_column_name _ _ _ G)).
  destruct (dtype_is_object (dtype_of c0)) eqn:D.
  - destruct (apply parse_german_number (values c0)) as [vals|] eqn:A; [|discriminate].
    simpl in H. apply apply_ok in A as [-> _].
    unfold assign in H.
    assert (has_column x s = true) as Hh by (apply has_column_get; eauto).
    rewrite Hh in H.
    match type of H with context [negb ?b] => destruct b end;
      cbn [negb] in H; [|discriminate].
    injection H as <-. split; [reflexivity|]. cbn [columns].
    apply map_ext_in. intros c Hin. destruct (String.eqb x (name c)) eqn:E; [|reflexivity].
    rewrite (U c Hin E). unfold converted. rewrite D.
    apply String.eqb_eq in E0. rewrite <- E0. f_equal.
    now destruct (values c0).
  - injection H as <-. split; [reflexivity|].
    rewrite <- (map_id (columns s)) at 1. apply map_ext_in.
    intros c Hin. destruct (String.eqb x (name c)) eqn:E; [|reflexivity].
    rewrite (U c Hin E). unfold converted. now rewrite D.
Qed.

Lemma name_converted c : name (converted c) = name c.
Proof. unfold converted. now destruct (dtype_is_object (dtype_of c)). Qed.

Lemma for_each_convert l : forall s s',
  NoDup l ->
  for_each convert_column l s = Ok s' ->
  index s' = index s /\
  columns s' = map (fun c => if existsb (String.eqb (name c)) l
                             then converted c else c) (columns s).
Proof.
  induction l as [|x l IH]; intros s s' Hnd H; simpl in H.
  - injection H as <-. split; [reflexivity|]. simpl. now rewrite map_id.
  - destruct (convert_column x s) as [s1|] eqn:C; [|discriminate]. simpl in H.
    inversion Hnd as [|? ? Hx Hl]; subst.
    apply convert_column_columns in C as [_ [I1 C1]].
    destruct (IH _ _ Hl H) as [I2 C2]. split; [congruence|].
    rewrite C2, C1, map_map. apply map_ext. intros c. cbn [existsb].
    rewrite (String.eqb_sym (name c) x).
    destruct (String.eqb x (name c)) eqn:E; cbn [orb]; [|reflexivity].
    rewrite name_converted. apply String.eqb_eq in E. subst x.
    assert (existsb (String.eqb (name c)) l = false) as ->; [|reflexivity].
    destruct (existsb _ l) eqn:X; [|reflexivity].
    apply existsb_exists in X as [y [Hy Ey]]. apply String.eqb_eq in Ey.
    subst y. contradiction.
Qed.

Lemma for_each_convert_checks l : forall s s',
  for_each convert_column l s = Ok s' ->
  forall x, In x l -> (Str.count_label x (labels s) <= 1)%nat.
Proof.
  induction l as [|y l IH]; intros s s' H x Hx; [destruct Hx|]. simpl in H.
  destruct (convert_column y s) as [s1|] eqn:C; [|discriminate]. simpl in H.
  destruct Hx as [<-|Hx].
  - now apply convert_column_columns in C.
  - apply convert_column_ok in C as [L _]. rewrite <- L. eapply IH; eassumption.
Qed.

Lemma nodup_of_counts l :
  (forall x, In x l -> (Str.count_label x l <= 1)%nat) -> NoDup l.
Proof.
  unfold Str.count_label. induction l as [|y l IH]; intros H; constructor.
  - intros Hy. specialize (H y (or_introl eq_refl)). simpl in H.
    rewrite String.eqb_refl in H. simpl in H.
    assert (In y (filter (String.eqb y) l)) as Hf
      by (apply filter_In; split; [exact Hy | apply String.eqb_refl]).
    destruct (filter (String.eqb y) l); [destruct Hf | simpl in H; lia].
  - apply IH. intros x Hx. specialize (H x (or_intror Hx)). simpl in H.
    destruct (String.eqb x y); simpl in H; lia.
Qed.

(** The loop of lines 98-100, when it ends: the headers were distinct
    and every column is converted. *)
Lemma convert_all_columns d d' :
  convert_all d = Ok d' ->
  NoDup (labels d) /\ index d' = index d /\ columns d' = map converted (columns d).
Proof.
  unfold convert_all. intros H.
  assert (NoDup (labels d)) as N
    by (apply nodup_of_counts; exact (for_each_convert_checks _ _ _ H)).
  split; [exact N|]. destruct (for_each_convert _ _ _ N H) as [I C].
  split; [exact I|]. rewrite C. apply map_ext_in. intros c Hc.
  assert (existsb (String.eqb (name c)) (labels d) = true) as ->; [|reflexivity].
  apply existsb_exists. exists (name c). split; [now apply in_map | apply String.eqb_refl].
Qed.

Lemma series_eta (l l' : list Series) :
  map name l = map name l' -> map dtype_of l = map dtype_of l' ->
  map values l = map values l' -> l = l'.
Proof.
  revert l'. induction l as [|c l IH]; intros [|c' l'] N D V; try discriminate;
    [reflexivity|].
  simpl in *. injection N as N1 N. injection D as D1 D. injection V as V1 V.
  f_equal; [|now apply IH]. destruct c, c'. simpl in *. congruence.
Qed.

Lemma rename_all_columns d :
  columns (rename_all d)
  = map (fun c => mkSeries (clean_name (name c)) (dtype_of c) (values c)) (columns d).
Proof.
  destruct (rename_all_frame d) as [_ [V D]].
  pose proof (rename_all_labels d) as L. unfold labels in L.
  apply series_eta; rewrite ?map_map; simpl.
  - rewrite L, map_map. reflexivity.
  - rewrite D. reflexivity.
  - rewrite V. reflexivity.
Qed.

Lemma filter_columns_not_date (cols : list Series) :
  filter (fun c => negb (is_date_label (name c)))
         (filter (fun c => negb (String.eqb "timestamp" (name c))) cols)
  = filter (fun c => negb (is_date_label (name c))) cols.
Proof.
  induction cols as [|c cols IH]; [reflexivity|]. cbn [filter].
  destruct (String.eqb_spec "timestamp" (name c)) as [E|]; cbn [negb filter].
  - rewrite <- E. replace (is_date_label "timestamp") with true by (now vm_compute).
    exact IH.
  - destruct (is_date_label (name c)); cbn [negb]; now rewrite IH.
Qed.

End ConvertFacts.

Module ShapeFacts.
Import FrameFacts NormalizeFacts TotalFacts ConvertFacts.

(** Lines 47-73: the frame once its rows are filtered and indexed. *)
Lemma indexed to_datetime df df1 df2 df3 :
  with_timestamp to_datetime df = Ok df1 ->
  dropna "timestamp" df1 = Ok df2 ->
  set_index "timestamp" df2 = Ok df3 ->
  exists ts, instants_of to_datetime df ts /\
    List.length ts = nrows df /\
    df3 = mkDF (select (kept ts) ts)
               (map (map_values (select (kept ts)))
                    (filter (fun c => negb (String.eqb "timestamp" (name c)))
                            (columns df))).
Proof.
  intros W D S.
  assert (forall ts, assign "timestamp" DDatetime ts df = Ok df1 ->
            List.length ts = nrows df /\
            df3 = mkDF (select (kept ts) ts)
                       (map (map_values (select (kept ts)))
                            (filter (fun c => negb (String.eqb "timestamp" (name c)))
                                    (columns df)))) as Main.
  { intros ts A. apply assign_ok in A as [Len [_ [G1 [F1 _]]]]. split; [exact Len|].
    unfold dropna in D. rewrite G1 in D. injection D as <-.
    unfold set_index, get_column in S. cbn [columns index values] in S.
    rewrite find_map_values in S. fold (get_column "timestamp" df1) in S.
    rewrite G1 in S. cbn [option_map map_values values] in S. injection S as <-.
    unfold kept.
    now rewrite (filter_map_values (fun l => negb (String.eqb "timestamp" l))), F1. }
  unfold with_timestamp in W. unfold instants_of.
  destruct (get_column "Start date" df) as [c|].
  - exists (map to_datetime_format (values c)).
    destruct (Main _ W) as [L E]. auto.
  - destruct (get_column "timestamp" df) as [c|] eqn:GT.
    + destruct (to_datetime (values c)) as [l|] eqn:T; [|discriminate]. simpl in W.
      exists (map of_instant l). destruct (Main _ W) as [L E].
      split; [exists c, l; auto | auto].
    + injection W as <-. unfold dropna in D. rewrite GT in D. discriminate.
Qed.

(** The whole of a normalized frame, from the frame read. *)
Lemma normalize_shape to_datetime df df' :
  normalize to_datetime df = Ok df' ->
  exists ts, instants_of to_datetime df ts /\
    List.length ts = nrows df /\
    index df' = select (kept ts) ts /\
    columns df' = map (normalized_column (kept ts))
                      (filter (fun c => negb (is_date_label (name c))) (columns df)) /\
    NoDup (labels df').
Proof.
  intros H. pose proof H as H0. unfold normalize in H.
  destruct (with_timestamp to_datetime df) as [df1|] eqn:W; [|discriminate].
  simpl in H. destruct (dropna "timestamp" df1) as [df2|] eqn:D; [|discriminate].
  simpl in H. destruct (set_index "timestamp" df2) as [df3|] eqn:S; [|discriminate].
  simpl in H.
  destruct (indexed _ _ _ _ _ W D S) as [ts [Hts [Len E3]]].
  exists ts. split; [exact Hts|]. split; [exact Len|].
  pose proof (convert_all_ok _ _ H) as [L' _].
  apply convert_all_columns in H as [N [I C]].
  destruct (rename_all_frame (drop_date_columns df3)) as [I' _].
  split; [|split].
  - rewrite I, I'. now subst df3.
  - rewrite C, rename_all_columns, drop_date_columns_columns, map_map. subst df3.
    cbn [columns].
    rewrite (filter_map_values (fun l => negb (is_date_label l))).
    rewrite filter_columns_not_date, map_map. reflexivity.
  - now rewrite L'.
Qed.

End ShapeFacts.

Module SoundFacts.
Import FrameFacts NormalizeFacts TotalFacts ConvertFacts.

Lemma convert_column_sound col s :
  In col (labels s) -> sound s ->
  convert_column col s
  = Raise (AttributeError "'DataFrame' object has no attribute 'dtype'") \/
  exists s', convert_column col s = Ok s' /\ labels s' = labels s /\ sound s'.
Proof.
  intros Hin Hs. unfold convert_column.
  destruct (Nat.ltb_spec 1 (Str.count_label col (labels s))) as [|Hc]; [now left|].
  right. apply has_column_In in Hin.
  destruct (proj1 (has_column_get col s) Hin) as [c Gc]. rewrite Gc.
  destruct (dtype_is_object (dtype_of c)); [|eauto].
  pose proof (get_column_In _ _ _ Gc) as Hcin.
  assert (List.length (values c) = nrows s /\ Forall representable (values c)) as [Lc Rc].
  { unfold sound in Hs. rewrite Forall_forall in Hs. apply Hs. now apply in_map. }
  destruct (apply_total _ Rc) as [vals [E [L R]]]. rewrite E. simpl.
  unfold assign. rewrite L, Lc, Nat.eqb_refl, Hin. simpl.
  eexists. split; [reflexivity|]. split.
  - unfold labels. simpl. now apply map_name_replaced.
  - unfold sound, nrows in *. simpl. rewrite map_map.
    rewrite Forall_forall in Hs. apply Forall_forall. intros vs Hvs.
    apply in_map_iff in Hvs as [c' [<- Hc']].
    destruct (String.eqb col (name c')); simpl.
    + split; [congruence | exact R].
    + apply Hs. now apply in_map.
Qed.

Lemma for_each_convert_sound l : forall s,
  incl l (labels s) -> sound s ->
  for_each convert_column l s
  = Raise (AttributeError "'DataFrame' object has no attribute 'dtype'") \/
  exists s', for_each convert_column l s = Ok s'.
Proof.
  induction l as [|x l IH]; intros s Hl Hs; simpl; [eauto|].
  destruct (convert_column_sound x s) as [E | [s1 [E [L S1]]]];
    [apply Hl; now left | exact Hs | rewrite E; now left |].
  rewrite E. simpl. apply IH; [|exact S1].
  rewrite L. intros y Hy. apply Hl. now right.
Qed.

Section WithOracle.

Variable to_datetime : list value -> result (list (option Timestamp)).

(** On a usable frame the normalizer comes down to the numeric
    conversion of a sound frame with the canonical headers. *)
Lemma normalize_usable df :
  usable df ->
  exists d0, normalize to_datetime df = convert_all d0 /\
             sound d0 /\ labels d0 = canonical_labels df.
Proof.
  intros [Hs [Hwf Hsafe]].
  destruct (proj1 (has_column_get _ _) Hs) as [c Gc].
  pose proof (get_column_In _ _ _ Gc) as Hcin.
  rewrite Forall_forall in Hwf, Hsafe.
  set (ts := map to_datetime_format (values c)).
  assert (List.length ts = nrows df) as Lts
    by (unfold ts; rewrite length_map; now apply Hwf).
  destruct (assign_total "timestamp" DDatetime ts df Lts) as [df1 A].
  unfold normalize, with_timestamp. rewrite Gc. fold ts. rewrite A. simpl.
  apply assign_ok in A as [_ [I1 [G1 [F1 _]]]].
  unfold dropna. rewrite G1. simpl.
  unfold set_index, get_column. cbn [columns index].
  rewrite find_map_values. fold (get_column "timestamp" df1). rewrite G1.
  cbn [option_map bind map_values values].
  rewrite (filter_map_values (fun l => negb (String.eqb "timestamp" l))), F1.
  set (df3 := mkDF _ _).
  exists (rename_all (drop_date_columns df3)). split; [reflexivity|]. split.
  - apply sound_rename_all, sound_drop_date.
    unfold sound, df3, nrows. simpl. rewrite map_map. apply Forall_forall.
    intros vs Hvs. apply in_map_iff in Hvs as [c' [<- Hc']].
    apply filter_In in Hc' as [Hc' _]. simpl. split.
    + apply select_length. rewrite Lts. now apply Hwf.
    + apply select_Forall. now apply Hsafe.
  - rewrite rename_all_labels, drop_date_columns_labels. unfold canonical_labels.
    f_equal. unfold labels at 1, df3. simpl. rewrite labels_map_values.
    rewrite (labels_filter (fun l => negb (String.eqb "timestamp" l))).
    apply filter_not_date_timestamp.
Qed.

End WithOracle.

Lemma select_le {A} mask (l : list A) :
  (List.length (select mask l) <= List.length l)%nat.
Proof.
  revert l. induction mask as [|b mask IH]; intros [|x l]; simpl; try lia.
  specialize (IH l). destruct b; simpl; lia.
Qed.

End SoundFacts.

(** ** The normalized frame *)

(** X3.  The headers of a normalized frame are pairwise distinct.  A
    usable frame normalizes exactly when the canonical names of its
    headers are distinct; when two headers share a canonical name the
    numeric conversion ends with [AttributeError], as it does on the
    headers "Total [MWh] Calculated resolutions" and "Total [MWh] Original
    resolutions". *)
Theorem normalized_headers_are_distinct :
  (forall to_datetime df df',
      normalize to_datetime df = Ok df' -> NoDup (labels df')) /\
  (forall to_datetime df,
      usable df ->
      (NoDup (canonical_labels df) <-> exists df', normalize to_datetime df = Ok df')) /\
  (forall to_datetime df,
      usable df -> ~ NoDup (canonical_labels df) ->
      normalize to_datetime df
      = Raise (AttributeError "'DataFrame' object has no attribute 'dtype'")) /\
  (forall to_datetime,
      normalize to_datetime example_twins
      = Raise (AttributeError "'DataFrame' object has no attribute 'dtype'")).
Proof.
  assert (forall td df df', normalize td df = Ok df' -> NoDup (canonical_labels df)) as N.
  { intros td df df' H.
    destruct (NormalizeFacts.normalize_ok td df df' H) as [ts [_ [_ [_ L]]]].
    destruct (ShapeFacts.normalize_shape td df df' H) as [ts' [_ [_ [_ [_ D]]]]].
    unfold canonical_labels. now rewrite <- L. }
  split; [|split; [|split]].
  - intros td df df' H.
    now destruct (ShapeFacts.normalize_shape td df df' H) as [ts [_ [_ [_ [_ D]]]]].
  - intros td df U. split.
    + intros D. destruct (TotalFacts.normalize_total td df U D) as [df' [E _]]. eauto.
    + intros [df' H]. eapply N; eassumption.
  - intros td df U D.
    destruct (SoundFacts.normalize_usable td df U) as [d0 [E [S L]]]. rewrite E.
    destruct (SoundFacts.for_each_convert_sound (labels d0) d0 (incl_refl _) S)
      as [R | [d' R]]; [exact R|].
    exfalso. apply D. apply (N td df d'). now rewrite E.
  - intros td. vm_compute. reflexivity.
Qed.

Lemma normalized_headers_are_distinct_witness :
  normalize no_datetime example_generation = Ok example_generation_normalized /\
  NoDup (labels example_generation_normalized).
Proof.
  assert (normalize no_datetime example_generation = Ok example_generation_normalized)
    as E by (vm_compute; reflexivity).
  split; [exact E|].
  exact (proj1 normalized_headers_are_distinct _ _ _ E).
Defined.

(** X4.  A normalized frame is the frame read, row for row and column
    for column: its row labels are the instants that are no [NaT], in
    their order; its columns are the columns whose header is no date
    label, in their order, each restricted to the rows kept, named by its
    canonical name and, when its dtype is object, holding the German
    reading of every cell as a float. *)
Theorem normalize_keeps_rows_whole :
  forall to_datetime df df',
    normalize to_datetime df = Ok df' ->
    exists ts,
      instants_of to_datetime df ts /\
      List.length ts = nrows df /\
      index df' = select (kept ts) ts /\
      columns df'
      = map (normalized_column (kept ts))
            (filter (fun c => negb (is_date_label (name c))) (columns df)).
Proof.
  intros td df df' H.
  destruct (ShapeFacts.normalize_shape td df df' H) as [ts [H1 [H2 [H3 [H4 _]]]]].
  exists ts. auto.
Qed.

Lemma normalize_keeps_rows_whole_witness :
  normalize no_datetime example_generation = Ok example_generation_normalized /\
  exists ts,
    instants_of no_datetime example_generation ts /\
    List.length ts = nrows example_generation /\
    index example_generation_normalized = select (kept ts) ts /\
    columns example_generation_normalized
    = map (normalized_column (kept ts))
          (filter (fun c => negb (is_date_label (name c)))
                  (columns example_generation)).
Proof.
  assert (normalize no_datetime example_generation = Ok example_generation_normalized)
    as E by (vm_compute; reflexivity).
  split; [exact E|].
  exact (normalize_keeps_rows_whole _ _ _ E).
Defined.

(** X5.  Normalizing a frame in which every column has one value per
    row gives a frame with the same property and no more rows; in it a
    column of dtype object is empty, so no text is left among the
    numbers. *)
Theorem normalized_frame_is_rectangular :
  forall to_datetime df df',
    Forall (fun c => List.length (values c) = nrows df) (columns df) ->
    normalize to_datetime df = Ok df' ->
    (nrows df' <= nrows df)%nat /\
    Forall (fun c => List.length (values c) = nrows df' /\
                     (dtype_is_object (dtype_of c) = true -> values c = []))
           (columns df').
Proof.
  intros td df df' W H.
  destruct (ShapeFacts.normalize_shape td df df' H) as [ts [_ [L [I [C _]]]]].
  unfold nrows in *. rewrite I. split.
  - rewrite <- L. apply SoundFacts.select_le.
  - rewrite C. apply Forall_forall. intros c Hc.
    apply in_map_iff in Hc as [c0 [<- Hc0]]. apply filter_In in Hc0 as [Hc0 _].
    rewrite Forall_forall in W. specialize (W _ Hc0).
    assert (List.length (select (kept ts) (values c0))
            = List.length (select (kept ts) ts)) as Ls
      by (apply FrameFacts.select_length; congruence).
    unfold normalized_column, converted. cbn [dtype_of values name].
    destruct (dtype_is_object (dtype_of c0)) eqn:D; cbn [dtype_of values].
    + rewrite length_map. split; [exact Ls|].
      destruct (select (kept ts) (values c0)); [reflexivity | discriminate].
    + split; [exact Ls | congruence].
Qed.

Lemma normalized_frame_is_rectangular_witness :
  Forall (fun c => List.length (values c) = nrows example_generation)
         (columns example_generation) /\
  (nrows example_generation_normalized <= nrows example_generation)%nat.
Proof.
  assert (Forall (fun c => List.length (values c) = nrows example_generation)
                 (columns example_generation)) as W by (repeat constructor).
  split; [exact W|].
  apply (normalized_frame_is_rectangular no_datetime example_generation
           example_generation_normalized W).
  vm_compute. reflexivity.
Defined.

(** ** Sorting on the row labels *)

Module SortFacts.

Lemma label_leb_total a b : label_leb a b = false -> label_leb b a = true.
Proof.
  destruct a, b; simpl; try discriminate. intros H.
  apply Z.leb_gt in H. apply Z.leb_le. lia.
Qed.

Lemma insert_sorted_sorted idx p l :
  Sorted (fun p q => label_leb (nth p idx VNone) (nth q idx VNone) = true) l ->
  Sorted (fun p q => label_leb (nth p idx VNone) (nth q idx VNone) = true)
         (insert_sorted idx p l).
Proof.
  induction l as [|q l IH]; intros H; simpl.
  - repeat constructor.
  - inversion H as [|? ? Hs Hh]; subst.
    destruct (label_leb (nth q idx VNone) (nth p idx VNone)) eqn:E.
    + constructor; [now apply IH|].
      destruct l as [|r l]; simpl.
      * now constructor.
      * inversion Hh; subst.
        destruct (label_leb (nth r idx VNone) (nth p idx VNone)); now constructor.
    + constructor; [exact H|]. constructor. now apply label_leb_total.
Qed.

Lemma sorted_positions_sorted idx :
  Sorted (fun p q => label_leb (nth p idx VNone) (nth q idx VNone) = true)
         (sorted_positions idx).
Proof.
  unfold sorted_positions.
  assert (forall l acc,
            Sorted (fun p q => label_leb (nth p idx VNone) (nth q idx VNone) = true) acc ->
            Sorted (fun p q => label_leb (nth p idx VNone) (nth q idx VNone) = true)
                   (fold_left (fun acc p => insert_sorted idx p acc) l acc)) as H.
  { induction l as [|p l IH]; intros acc Ha; simpl; [exact Ha|].
    apply IH. now apply insert_sorted_sorted. }
  apply H. constructor.
Qed.

Lemma sorted_map {A B} (R : A -> A -> Prop) (R' : B -> B -> Prop) (f : A -> B) l :
  (forall x y, R x y -> R' (f x) (f y)) -> Sorted R l -> Sorted R' (map f l).
Proof.
  intros Hf. induction 1 as [|x l Hs IH Hh]; simpl; constructor; [exact IH|].
  destruct Hh; simpl; constructor. now apply Hf.
Qed.

Lemma sort_index_sorted df :
  Sorted (fun a b => label_leb a b = true) (index (sort_index df)).
Proof.
  unfold sort_index, gather. cbn [index].
  eapply sorted_map; [|apply sorted_positions_sorted]. auto.
Qed.

Lemma sorted_weaken {A} (R R' : A -> A -> Prop) l :
  (forall x y, In x l -> In y l -> R x y -> R' x y) -> Sorted R l -> Sorted R' l.
Proof.
  intros H S. induction S as [|x l Hs IH Hh]; constructor.
  - apply IH. intros a b Ha Hb. apply H; now right.
  - destruct Hh; constructor. apply H; simpl; auto.
Qed.

Lemma earlier_trans a b c : earlier a b -> earlier b c -> earlier a c.
Proof. destruct a, b, c; simpl; try tauto. lia. Qed.


End SortFacts.

(** ** Failures and the output file *)

Module TraceFacts.
Import DriverFacts.

Lemma clean_smard_df_raise read_csv to_datetime path df e :
  read_csv path = ReadOk df -> normalize to_datetime df = Raise e ->
  clean_smard_df read_csv to_datetime path
  = ([Print ("Processing " ++ path ++ "...")], Raise e).
Proof.
  intros R N. rewrite (clean_smard_df_ok _ _ _ _ R). now rewrite N.
Qed.

Lemma clean_smard_df_writes_nothing read_csv to_datetime path :
  filter is_write (fst (clean_smard_df read_csv to_datetime path)) = [].
Proof.
  destruct (read_csv path) as [df|e] eqn:R.
  - now rewrite (clean_smard_df_ok _ _ _ _ R).
  - now rewrite (clean_smard_df_error _ _ _ _ R).
Qed.

Lemma io_bind_fst {A B} (m : io A) (k : A -> io B) :
  fst (io_bind m k)
  = (fst m ++ match snd m with Ok a => fst (k a) | Raise _ => [] end)%list.
Proof.
  destruct m as [t [a|e]]; simpl; [|now rewrite app_nil_r].
  now destruct (k a).
Qed.

Lemma collect_writes_nothing read_csv to_datetime :
  filter is_write (fst (collect read_csv to_datetime)) = [].
Proof.
  unfold collect. rewrite !io_bind_fst, !filter_app.
  rewrite clean_smard_df_writes_nothing. cbn [app].
  destruct (snd (clean_smard_df read_csv to_datetime src_generation)); [|reflexivity].
  rewrite !io_bind_fst, !filter_app, clean_smard_df_writes_nothing. cbn [app].
  destruct (snd (clean_smard_df read_csv to_datetime src_consumption)); [|reflexivity].
  rewrite !io_bind_fst, !filter_app, clean_smard_df_writes_nothing. cbn [app].
  now destruct (snd (clean_smard_df read_csv to_datetime src_prices)).
Qed.

End TraceFacts.

(** X6.  An exception of the normalizer ends the whole pipeline at the
    source that raised it: the sources after it are not announced, let
    alone read, no merge is announced, and the exception is the
    pipeline's. *)
Theorem normalization_failure_aborts :
  forall read_csv to_datetime perform,
    (forall df e,
        read_csv src_generation = ReadOk df ->
        normalize to_datetime df = Raise e ->
        run_pipeline read_csv to_datetime perform
        = ([Print ("Processing " ++ src_generation ++ "...")], Raise e)) /\
    (forall t g df e,
        clean_smard_df read_csv to_datetime src_generation = (t, Ok g) ->
        read_csv src_consumption = ReadOk df ->
        normalize to_datetime df = Raise e ->
        run_pipeline read_csv to_datetime perform
        = ((t ++ [Print ("Processing " ++ src_consumption ++ "...")])%list, Raise e)) /\
    (forall t1 g t2 c df e,
        clean_smard_df read_csv to_datetime src_generation = (t1, Ok g) ->
        clean_smard_df read_csv to_datetime src_consumption = (t2, Ok c) ->
        read_csv src_prices = ReadOk df ->
        normalize to_datetime df = Raise e ->
        run_pipeline read_csv to_datetime perform
        = ((t1 ++ t2 ++ [Print ("Processing " ++ src_prices ++ "...")])%list, Raise e)).
Proof.
  intros read_csv td perform. split; [|split].
  - intros df e R N. unfold run_pipeline, collect.
    now rewrite (TraceFacts.clean_smard_df_raise _ _ _ _ _ R N).
  - intros t g df e G R N. unfold run_pipeline, collect.
    now rewrite G, (TraceFacts.clean_smard_df_raise _ _ _ _ _ R N).
  - intros t1 g t2 c df e G C R N. unfold run_pipeline, collect.
    now rewrite G, C, (TraceFacts.clean_smard_df_raise _ _ _ _ _ R N).
Qed.

Lemma normalization_failure_aborts_witness :
  run_pipeline (fun _ => ReadOk example_twins) no_datetime always_ok
  = ([Print ("Processing " ++ src_generation ++ "...")],
     Raise (AttributeError "'DataFrame' object has no attribute 'dtype'")).
Proof.
  apply (proj1 (normalization_failure_aborts (fun _ => ReadOk example_twins)
                  no_datetime always_ok) example_twins).
  - reflexivity.
  - vm_compute. reflexivity.
Defined.



(** X8.  The output file is touched at most once, and only with the
    merge of the tables collected.  A write in a run is the only write of
    the run and goes to the output path; the tables were then collected
    and merged, and the table written has the headers and the rows of
    their merge, in ascending order of the row labels.  When the sources
    are not collected, none loads, or the merge fails, no write is
    attempted.  A write that fails is the last effect of the run, which
    ends with the exception of the write; what it has left of the file is
    not known. *)
Theorem output_is_written_after_the_merge :
  forall read_csv to_datetime perform,
    (forall path w,
        In (WriteCsv path w) (fst (run_pipeline read_csv to_datetime perform)) ->
        path = output_path /\
        filter is_write (fst (run_pipeline read_csv to_datetime perform))
        = [WriteCsv output_path w] /\
        exists t df0 rest master,
          collect read_csv to_datetime = (t, Ok (df0 :: rest)) /\
          merge df0 rest = Ok master /\
          labels w = labels master /\
          Permutation (rows w) (rows master) /\
          Sorted (fun a b => label_leb a b = true) (index w)) /\
    ((forall t df0 rest master,
         collect read_csv to_datetime = (t, Ok (df0 :: rest)) ->
         merge df0 rest <> Ok master) ->
     filter is_write (fst (run_pipeline read_csv to_datetime perform)) = []) /\
    (forall path w e,
        In (WriteCsv path w) (fst (run_pipeline read_csv to_datetime perform)) ->
        perform (WriteCsv path w) = Raise e ->
        snd (run_pipeline read_csv to_datetime perform) = Raise e /\
        exists t,
          fst (run_pipeline read_csv to_datetime perform)
          = (t ++ [WriteCsv path w])%list).
Proof.
  intros read_csv td perform.
  pose proof (TraceFacts.collect_writes_nothing read_csv td) as W.
  destruct (collect read_csv td) as [t [[|df0 rest]|e]] eqn:C; cbn [fst] in W.
  - rewrite (DriverFacts.run_pipeline_empty _ _ perform _ C). cbn [fst snd].
    assert (filter is_write (t ++ [Print "No data processed."]) = []) as F
      by (now rewrite filter_app, W).
    split; [|split; [intros _; exact F|]].
    + intros path w Hin.
      assert (In (WriteCsv path w) (filter is_write (t ++ [Print "No data processed."])))
        as X by (apply filter_In; split; [exact Hin | reflexivity]).
      rewrite F in X. destruct X.
    + intros path w e Hin.
      assert (In (WriteCsv path w) (filter is_write (t ++ [Print "No data processed."])))
        as X by (apply filter_In; split; [exact Hin | reflexivity]).
      rewrite F in X. destruct X.
  - destruct (merge df0 rest) as [master|e] eqn:M.
    + destruct (DriverFacts.run_pipeline_merged read_csv td perform _ _ _ _ C M)
        as [tail [E [Wt [Hr _]]]].
      assert (filter is_write (fst (run_pipeline read_csv td perform))
              = [WriteCsv output_path (sort_index master)]) as F.
      { rewrite E, filter_app, W. cbn [app filter is_write]. now rewrite Wt. }
      assert (forall path w,
                 In (WriteCsv path w) (fst (run_pipeline read_csv td perform)) ->
                 path = output_path /\ w = sort_index master) as Only.
      { intros path w Hin.
        assert (In (WriteCsv path w)
                   (filter is_write (fst (run_pipeline read_csv td perform)))) as X
          by (apply filter_In; split; [exact Hin | reflexivity]).
        rewrite F in X. destruct X as [[= <- <-] | []]. auto. }
      split; [|split].
      * intros path w Hin. destruct (Only _ _ Hin) as [-> ->].
        split; [reflexivity|]. split; [exact F|].
        exists t, df0, rest, master.
        destruct (JoinFacts.sort_index_perm master) as [P L].
        repeat split; auto. apply SortFacts.sort_index_sorted.
      * intros H. elim (H t df0 rest master eq_refl M).
      * intros path w e Hin P. destruct (Only _ _ Hin) as [-> ->].
        destruct (Hr e P) as [-> R]. split; [exact R|].
        exists (t ++ [Print "Merging datasets..."])%list.
        rewrite E, <- app_assoc. reflexivity.
    + rewrite (DriverFacts.run_pipeline_unmerged _ _ perform _ _ _ _ C M).
      cbn [fst snd].
      assert (filter is_write (t ++ [Print "Merging datasets..."]) = []) as F
        by (now rewrite filter_app, W).
      split; [|split; [intros _; exact F|]].
      * intros path w Hin.
        assert (In (WriteCsv path w)
                   (filter is_write (t ++ [Print "Merging datasets..."])))
          as X by (apply filter_In; split; [exact Hin | reflexivity]).
        rewrite F in X. destruct X.
      * intros path w e' Hin.
        assert (In (WriteCsv path w)
                   (filter is_write (t ++ [Print "Merging datasets..."])))
          as X by (apply filter_In; split; [exact Hin | reflexivity]).
        rewrite F in X. destruct X.
  - rewrite (DriverFacts.run_pipeline_raise _ _ perform _ _ C). cbn [fst snd].
    split; [|split; [intros _; exact W|]].
    + intros path w Hin.
      assert (In (WriteCsv path w) (filter is_write t))
        as X by (apply filter_In; split; [exact Hin | reflexivity]).
      rewrite W in X. destruct X.
    + intros path w e' Hin.
      assert (In (WriteCsv path w) (filter is_write t))
        as X by (apply filter_In; split; [exact Hin | reflexivity]).
      rewrite W in X. destruct X.
Qed.

(** With the generation export alone and a full disk, the run attempts
    the one write and ends there with the disk's exception. *)
Lemma output_is_written_after_the_merge_witness :
  In (WriteCsv output_path example_generation_normalized)
     (fst (run_pipeline only_generation no_datetime disk_full)) /\
  snd (run_pipeline only_generation no_datetime disk_full)
  = Raise (OSError "No space left on device") /\
  exists t,
    fst (run_pipeline only_generation no_datetime disk_full)
    = (t ++ [WriteCsv output_path example_generation_normalized])%list.
Proof.
  assert (In (WriteCsv output_path example_generation_normalized)
             (fst (run_pipeline only_generation no_datetime disk_full))) as Hin
    by (vm_compute; auto 10).
  split; [exact Hin|].
  apply (proj2 (proj2 (output_is_written_after_the_merge
                         only_generation no_datetime disk_full))
               output_path example_generation_normalized
               (OSError "No space left on device") Hin).
  reflexivity.
Defined.


(** ** Sorting and joining on instants *)

(** X9.  Sorting puts the rows in ascending order of their labels and
    changes nothing else: the rows are the same rows and the headers the
    same headers.  When the labels are instants, as in every normalized
    and merged table, each row is no later than every row after it. *)
Theorem sort_index_is_ascending :
  forall df,
    Sorted (fun a b => label_leb a b = true) (index (sort_index df)) /\
    Permutation (rows (sort_index df)) (rows df) /\
    labels (sort_index df) = labels df /\
    (Forall (fun v => is_instant v = true) (index df) ->
     StronglySorted earlier (index (sort_index df))).
Proof.
  intros df. split; [apply SortFacts.sort_index_sorted|].
  destruct (JoinFacts.sort_index_perm df) as [P L].
  split; [exact P|]. split; [exact L|].
  intros Hi. apply Sorted_StronglySorted.
  - intros a b c. apply SortFacts.earlier_trans.
  - apply (SortFacts.sorted_weaken (fun a b => label_leb a b = true));
      [|apply SortFacts.sort_index_sorted].
    rewrite Forall_forall in Hi.
    intros x y Hx Hy.
    pose proof (Hi x (proj1 (JoinFacts.sort_index_keys df x) Hx)) as Ix.
    pose proof (Hi y (proj1 (JoinFacts.sort_index_keys df y) Hy)) as Iy.
    destruct x, y; try discriminate. simpl. apply Z.leb_le.
Qed.

Lemma sort_index_is_ascending_witness :
  Forall (fun v => is_instant v = true) (index example_unsorted) /\
  StronglySorted earlier (index (sort_index example_unsorted)) /\
  sort_index example_unsorted = example_A.
Proof.
  assert (Forall (fun v => is_instant v = true) (index example_unsorted)) as F
    by (repeat constructor).
  split; [exact F|]. split; [|vm_compute; reflexivity].
  exact (proj2 (proj2 (proj2 (sort_index_is_ascending example_unsorted))) F).
Defined.

Module KeyFacts.
Import JoinFacts.


Lemma existsb_label x l : existsb (label_eqb x) l = true <-> In x l.
Proof.
  rewrite existsb_exists. split.
  - intros [y [Hy E]]. apply label_eqb_eq in E. now subst.
  - intros H. exists x. split; [exact H | now apply label_eqb_eq].
Qed.







End KeyFacts.



(* ================================================================= *)
(** ** The pipeline as a whole *)

Module RunFacts.
Import DriverFacts TotalFacts.








End RunFacts.



